(** * script-deps: the dependency collector of [script_deps/main.py]

    A shallow embedding of [DependencyCollector] and of the parts of the
    Python runtime it talks to, followed by the properties of the
    discovery and bundling algorithm.

    Modelling conventions.
    - A [pathlib.Path] that went through [resolve()] is an absolute,
      normalised POSIX path: the list of its components below the
      anchor ["/"].
    - Python [str] is an ASCII string; [str.lower] maps [A-Z] to [a-z].
    - Python [set] is a [gset]; a [for] loop over a set visits the list
      [elements] of it.  CPython fixes no iteration order for sets; the
      proofs below only use membership in, and duplicate-freeness of,
      that list.
    - The host (file system, import machinery, package metadata, the
      test run) is a record of oracles, [World], that does not change
      while the collector runs.
    - Exceptions are the [Raise] outcome; [Timeout] is the model running
      out of fuel and has no Python counterpart. *)

From Stdlib Require Import Ascii String.
From stdpp Require Import base strings list gmap sets sorting.
From Equations Require Import Equations.

Local Open Scope string_scope.
Set Warnings "-clear-no-such-hyp".

(** ** Python strings *)

Module PyStr.

(** [c.lower()] on one ASCII character. *)
Definition lower_ascii (c : ascii) : ascii :=
  let n := nat_of_ascii c in
  if (65 <=? n)%nat && (n <=? 90)%nat then ascii_of_nat (n + 32) else c.

(** [s.lower()] *)
Fixpoint lower (s : string) : string :=
  match s with
  | EmptyString => EmptyString
  | String c s' => String (lower_ascii c) (lower s')
  end.

(** [s.startswith(p)] *)
Fixpoint startswith (p s : string) : bool :=
  match p, s with
  | EmptyString, _ => true
  | String a p', String b s' => if Ascii.eqb a b then startswith p' s' else false
  | String _ _, EmptyString => false
  end.

(** [needle in hay] *)
Fixpoint contains (needle hay : string) : bool :=
  startswith needle hay ||
  match hay with
  | EmptyString => false
  | String _ hay' => contains needle hay'
  end.

(** [s.split(sep)[0]] for a one-character separator: the text before
    the first occurrence of [sep], or all of [s] when there is none. *)
Fixpoint split_head (sep : ascii) (s : string) : string :=
  match s with
  | EmptyString => EmptyString
  | String c s' => if Ascii.eqb c sep then EmptyString else String c (split_head sep s')
  end.

(** [s.rfind(c)], counted from 0; [None] is Python's [-1]. *)
Fixpoint rfind (c : ascii) (s : string) : option nat :=
  match s with
  | EmptyString => None
  | String a s' =>
      match rfind c s' with
      | Some i => Some (S i)
      | None => if Ascii.eqb a c then Some 0%nat else None
      end
  end.

(** [s[i:]] *)
Fixpoint drop (i : nat) (s : string) : string :=
  match i, s with
  | O, _ => s
  | S i', String _ s' => drop i' s'
  | S _, EmptyString => EmptyString
  end.

(** [sep.join(l)] *)
Fixpoint join (sep : string) (l : list string) : string :=
  match l with
  | [] => ""
  | [x] => x
  | x :: l' => x +:+ sep +:+ join sep l'
  end.

(** Truthiness of a [str]: the empty string is falsy. *)
Definition truthy (s : string) : bool :=
  match s with EmptyString => false | _ => true end.

End PyStr.

(** ** pathlib *)

Module PyPath.

Definition Path : Type := list string.

(** [str(p)] *)
Definition str (p : Path) : string := "/" +:+ PyStr.join "/" p.

(** [p.parts] *)
Definition parts (p : Path) : list string := "/" :: p.

(** [p.parent]; the anchor is its own parent. *)
Definition parent (p : Path) : Path := removelast p.

(** [p.name] *)
Definition name (p : Path) : string := List.last p "".

(** [p.suffix]: the text from the last dot of the final component on,
    unless that dot is its first or its last character. *)
Definition suffix (p : Path) : string :=
  let n := name p in
  match PyStr.rfind "." n with
  | Some i =>
      if (0 <? i)%nat && (i <? String.length n - 1)%nat
      then PyStr.drop i n else ""
  | None => ""
  end.

(** [p / q] for a relative [q] *)
Definition join (p q : Path) : Path := (p ++ q)%list.

(** [p.relative_to(root)]; [None] is the [ValueError] raised when
    [root] is not a prefix of [p]. *)
Fixpoint relative_to (p root : Path) {struct root} : option Path :=
  match root, p with
  | [], _ => Some p
  | r :: root', x :: p' => if String.eqb r x then relative_to p' root' else None
  | _ :: _, [] => None
  end.

(** [p.parts[-2]]; [None] is the [IndexError] of a one-element tuple. *)
Definition parts_m2 (p : Path) : option string :=
  match rev (parts p) with
  | _ :: x :: _ => Some x
  | _ => None
  end.

End PyPath.

Export PyPath.


(** ** The syntax trees of [ast]

    Only the node classes that [analyze_imports] tells apart are kept
    separate.  [Other] is any other node class (class definitions,
    conditionals, [try] blocks, expressions, ...) with the nodes that
    [ast.iter_child_nodes] yields for it.  A [FunctionDef] keeps its
    body; its arguments, decorators and annotations are expressions,
    under which no statement can occur. *)

Module Ast.

(** [ast.alias]: the [name] and optional [asname] of one imported name. *)
Record alias := Alias { alias_name : string; alias_asname : option string }.

#[warnings="-register-all"] Inductive node :=
| Module (body : list node)
| FunctionDef (name : string) (body : list node)
| Import (names : list alias)
| ImportFrom (module : option string) (names : list alias) (level : nat)
| Other (children : list node).

(** [ast.iter_child_nodes] *)
Definition iter_child_nodes (n : node) : list node :=
  match n with
  | Module body => body
  | FunctionDef _ body => body
  | Import _ => []
  | ImportFrom _ _ _ => []
  | Other children => children
  end.

(** Number of nodes of a tree, and of a queue of trees: the measure
    along which the queue of [ast.walk] shrinks. *)
Fixpoint node_size (n : node) : nat :=
  let fix total (l : list node) : nat :=
    match l with
    | [] => 0
    | x :: l' => node_size x + total l'
    end in
  match n with
  | Module body => S (total body)
  | FunctionDef _ body => S (total body)
  | Import _ => 1
  | ImportFrom _ _ _ => 1
  | Other children => S (total children)
  end.

Definition queue_size (l : list node) : nat := sum_list_with node_size l.

(** [ast.walk]: breadth-first over the queue [todo];
    [todo.popleft()], then [todo.extend(iter_child_nodes(node))]. *)
Equations? walk_queue (todo : list node) : list node by wf (queue_size todo) lt :=
  walk_queue [] := [];
  walk_queue (n :: todo) := n :: walk_queue (todo ++ iter_child_nodes n).
Proof.
  assert (Hsize : forall m, node_size m = S (sum_list_with node_size (iter_child_nodes m))).
  { intros [body|f body|names|m names lvl|body]; simpl; try reflexivity; f_equal;
      induction body as [|x body IH]; simpl; auto. }
  unfold queue_size. rewrite sum_list_with_app.
  change (sum_list_with node_size (n :: todo)) with (node_size n + sum_list_with node_size todo).
  rewrite (Hsize n). lia.
Qed.

Definition walk (tree : node) : list node := walk_queue [tree].

End Ast.

Export Ast.


(** ** The Python runtime seen by the collector *)

Module Py.

(** The exceptions that can leave the collector. [ImportCrash] is any
    exception other than [ImportError] raised while a module is
    imported. *)
Inductive exn := OSError | SyntaxError | SameFileError | ImportCrash.

Inductive outcome (A : Type) :=
| Done (a : A)
| Raise (e : exn)
| Timeout.
Arguments Done {A} a.
Arguments Raise {A} e.
Arguments Timeout {A}.

Definition bind {A B} (m : outcome A) (k : A -> outcome B) : outcome B :=
  match m with
  | Done a => k a
  | Raise e => Raise e
  | Timeout => Timeout
  end.

(** What [importlib.import_module(name)] does. *)
Inductive import_result :=
| ImportError                        (* caught by [find_module_path] *)
| ImportRaises                       (* any other exception *)
| Imported (file : option Path).     (* the resolved [__file__], if any *)

(** The host.  [file_text p] is [open(p, 'r', encoding='utf-8').read()],
    [None] when that raises; [ast_parse] is [ast.parse], [None] when it
    raises [SyntaxError]; [working_set_find d] is the [key] and
    [version] of [pkg_resources.working_set.find(Requirement.parse(d))],
    [None] when there is no distribution or the lookup raises;
    [rglob d] is [d.rglob('*')]; [pytest_main tests] lists, for every
    key that [pytest.main([tests, '-v'])] added to [sys.modules], the
    resolved [__file__] of the module. *)
Record World := {
  file_text : Path -> option string;
  ast_parse : string -> option node;
  import_module : string -> import_result;
  working_set_find : string -> option (string * string);
  is_file : Path -> bool;
  rglob : Path -> list Path;
  pytest_main : string -> list (string * option Path)
}.

(** What a file of the output tree holds: a copy of a source file, or
    text written by the collector. *)
Inductive content := CopyOf (src : Path) | Text (s : string).

End Py.

Export Py.

Global Instance outcome_ret : MRet outcome := @Done.
Global Instance outcome_bind : MBind outcome := fun A B k m => bind m k.

(** A computation that also keeps a ghost log: the files handed to
    [analyze_imports] so far, in call order.  The log survives an
    exception, like a list kept outside the collector would. *)
Record traced (A : Type) := Traced { trace : list Path; result : outcome A }.
Arguments Traced {A} trace result.
Arguments trace {A} t.
Arguments result {A} t.

Definition traced_bind {A B} (m : traced A) (k : A -> traced B) : traced B :=
  match result m with
  | Done a => Traced (trace m ++ trace (k a)) (result (k a))
  | Raise e => Traced (trace m) (Raise e)
  | Timeout => Traced (trace m) Timeout
  end.

Global Instance traced_ret : MRet traced := fun A a => Traced [] (Done a).
Global Instance traced_bind_inst : MBind traced := fun A B k m => traced_bind m k.

(** Run a computation that logs nothing. *)
Definition lift {A} (o : outcome A) : traced A := Traced [] o.

(** Log one call of [analyze_imports]. *)
Definition tell (p : Path) : traced unit := Traced [p] (Done tt).

(** The computation returned, and what it returned satisfies [P]. *)
Definition on_done {A} (o : outcome A) (P : A -> Prop) : Prop :=
  match o with
  | Done a => P a
  | _ => False
  end.

Global Instance on_done_dec {A} (o : outcome A) (P : A -> Prop)
  `{∀ a, Decision (P a)} : Decision (on_done o P).
Proof. destruct o; simpl; apply _. Defined.

Global Instance content_eq_dec : EqDecision content.
Proof. solve_decision. Defined.

Global Instance exn_eq_dec : EqDecision exn.
Proof. solve_decision. Defined.

(** ** [class DependencyCollector] *)

Record Collector := {
  gateway_path : Path;
  root_path : Path;
  output_path : Path;
  collected_modules : gset string;
  collected_files : gset Path;
  third_party_packages : gset string;
  config_extensions : gset string
}.

(** [self.collected_files.add(p)] *)
Definition add_file (c : Collector) (p : Path) : Collector :=
  {| gateway_path := gateway_path c;
     root_path := root_path c;
     output_path := output_path c;
     collected_modules := collected_modules c;
     collected_files := {[ p ]} ∪ collected_files c;
     third_party_packages := third_party_packages c;
     config_extensions := config_extensions c |}.

(** [self.third_party_packages.add(s)] *)
Definition add_package (c : Collector) (s : string) : Collector :=
  {| gateway_path := gateway_path c;
     root_path := root_path c;
     output_path := output_path c;
     collected_modules := collected_modules c;
     collected_files := collected_files c;
     third_party_packages := {[ s ]} ∪ third_party_packages c;
     config_extensions := config_extensions c |}.

(** [__init__]; [gateway] and [root] are the resolved paths, [output]
    is [None] when no (or an empty) output path was given. *)
Definition init (gateway root : Path) (output : option Path) : Collector :=
  {| gateway_path := gateway;
     root_path := root;
     output_path := match output with Some o => o | None => parent gateway end;
     collected_modules := ∅;
     collected_files := {[ gateway ]};
     third_party_packages := ∅;
     config_extensions := {[ ".txt"; ".yaml"; ".yml"; ".json" ]} |}.

Definition is_venv_module (module_path : Path) : bool :=
  PyStr.contains "venv" (PyStr.lower (str module_path))
  || PyStr.contains "site-packages" (str module_path).

(** The bare [except:] turns every failure of the lookup into [None]. *)
Definition get_package_name (w : World) (module_path : Path) : option string :=
  match parts_m2 module_path with
  | Some d =>
      match working_set_find w d with
      | Some (key, version) => Some (key +:+ "==" +:+ version)
      | None => None
      end
  | None => None
  end.

Definition find_module_path (w : World) (c : Collector) (module_name : string)
  : outcome (option Path * Collector) :=
  match import_module w module_name with
  | Imported (Some module_path) =>
      if is_venv_module module_path then
        match get_package_name w module_path with
        | Some package_name => Done (Some module_path, add_package c package_name)
        | None => Done (Some module_path, c)
        end
      else Done (Some module_path, c)
  | Imported None => Done (None, c)
  | ImportError => Done (None, c)
  | ImportRaises => Raise ImportCrash
  end.

Definition is_project_module (c : Collector) (module_path : Path) : bool :=
  if decide (module_path = gateway_path c) then false
  else match relative_to module_path (root_path c) with
       | Some _ => true
       | None => false
       end.

(** The names one node adds to [imports]. *)
Definition node_imports (n : node) (imports : gset string) : gset string :=
  match n with
  | Import names =>
      foldl (fun acc a => {[ PyStr.split_head "." (alias_name a) ]} ∪ acc) imports names
  | ImportFrom (Some m) _ _ =>
      if PyStr.truthy m then {[ PyStr.split_head "." m ]} ∪ imports else imports
  | _ => imports
  end.

(** The loop of [analyze_imports] over [ast.walk(tree)]. *)
Definition tree_imports (tree : node) : gset string :=
  foldl (fun acc n => node_imports n acc) ∅ (walk tree).

Definition analyze_imports (w : World) (file_path : Path) : outcome (gset string) :=
  match file_text w file_path with
  | None => Raise OSError
  | Some text =>
      match ast_parse w text with
      | None => Raise SyntaxError
      | Some tree => Done (tree_imports tree)
      end
  end.

Definition collect_config_files (w : World) (c : Collector) (module_path : Path) : Collector :=
  if is_file w module_path then
    foldl (fun c file_path =>
             if decide (PyStr.lower (suffix file_path) ∈ config_extensions c) then
               if is_project_module c file_path then add_file c file_path else c
             else c)
          c (rglob w (parent module_path))
  else c.

(** The [for import_name in imports] loop of
    [collect_static_dependencies]; [recurse] is the recursive call. *)
Fixpoint for_imports (w : World) (recurse : Collector -> Path -> traced Collector)
    (imports : list string) (c : Collector) : traced Collector :=
  match imports with
  | [] => mret c
  | import_name :: imports' =>
      '(found, c1) ← lift (find_module_path w c import_name);
      match found with
      | Some module_path =>
          if is_project_module c1 module_path then
            if decide (module_path ∈ collected_files c1) then
              for_imports w recurse imports' c1
            else
              let c2 := add_file c1 module_path in
              let c3 := collect_config_files w c2 module_path in
              c4 ← recurse c3 module_path;
              for_imports w recurse imports' c4
          else for_imports w recurse imports' c1
      | None => for_imports w recurse imports' c1
      end
  end.

Fixpoint collect_static_dependencies (fuel : nat) (w : World) (c : Collector)
    (file_path : Path) : traced Collector :=
  match fuel with
  | O => lift Timeout
  | S fuel' =>
      _ ← tell file_path;
      imports ← lift (analyze_imports w file_path);
      let c1 := collect_config_files w c file_path in
      for_imports w (collect_static_dependencies fuel' w) (elements imports) c1
  end.

Definition collect_runtime_dependencies (w : World) (c : Collector)
    (tests_path : string) : Collector :=
  foldl (fun c (m : string * option Path) =>
           match m.2 with
           | Some module_path =>
               if is_project_module c module_path
               then collect_config_files w (add_file c module_path) module_path
               else c
           | None => c
           end)
        c (pytest_main w tests_path).

(** The lines of [requirements.txt], in the order they are written:
    [sorted] orders [str] by code point, which is [String.le]. *)
Definition manifest_lines (c : Collector) : list string :=
  merge_sort String.le (elements (third_party_packages c)).

Definition newline : string := String (ascii_of_nat 10) EmptyString.

Definition manifest_text (c : Collector) : string :=
  foldr (fun package text => package +:+ newline +:+ text) "" (manifest_lines c).

Definition requirements_path (c : Collector) : Path :=
  join (output_path c) ["requirements.txt"].

(** The file that [create_requirements_txt] writes, if it writes one. *)
Definition create_requirements_txt (c : Collector) : option (Path * string) :=
  if decide (third_party_packages c = ∅) then None
  else Some (requirements_path c, manifest_text c).

(** The output tree is a flat map from paths to contents; directories
    are implicit, so [mkdir] and a missing output directory are not
    modelled. *)
Definition write_file (f : option (Path * string)) (tree : gmap Path content)
  : gmap Path content :=
  match f with
  | Some (p, text) => <[ p := Text text ]> tree
  | None => tree
  end.

(** [shutil.copy2(src, dst)] *)
Definition copy2 (w : World) (src dst : Path) (tree : gmap Path content)
  : outcome (gmap Path content) :=
  if is_file w src then
    if decide (src = dst) then Raise SameFileError
    else Done (<[ dst := CopyOf src ]> tree)
  else Raise OSError.

(** The [for file_path in self.collected_files] loop of
    [copy_dependencies]. *)
Fixpoint copy_files (w : World) (c : Collector) (files : list Path)
    (tree : gmap Path content) : outcome (gmap Path content) :=
  match files with
  | [] => Done tree
  | file_path :: files' =>
      if is_project_module c file_path && negb (is_venv_module file_path) then
        match relative_to file_path (root_path c) with
        | Some rel_path =>
            let target_path := join (output_path c) rel_path in
            tree' ← copy2 w file_path target_path tree;
            copy_files w c files' tree'
        | None => copy_files w c files' tree
        end
      else copy_files w c files' tree
  end.

Definition copy_dependencies (w : World) (c : Collector) (tree : gmap Path content)
  : outcome (gmap Path content) :=
  tree' ← copy_files w c (elements (collected_files c)) tree;
  Done (write_file (create_requirements_txt c) tree').

(** [main], after argument parsing; [tree] is the output tree before
    the run. *)
Definition main (fuel : nat) (w : World) (gateway root : Path) (output : option Path)
    (tests_path : string) (tree : gmap Path content)
  : outcome (Collector * gmap Path content) :=
  let collector := init gateway root output in
  c1 ← result (collect_static_dependencies fuel w collector (gateway_path collector));
  let c2 := collect_runtime_dependencies w c1 tests_path in
  tree' ← copy_dependencies w c2 tree;
  Done (c2, tree').

(** ** Small hosts to run the collector on *)

Module Host.

Fixpoint assoc {K A} `{EqDecision K} (l : list (K * A)) (k : K) : option A :=
  match l with
  | [] => None
  | (k', a) :: l' => if decide (k = k') then Some a else assoc l' k
  end.

(** A host given by tables: the text of each file, the tree of each
    text, the file of each importable module, the installed
    distributions by directory name, and what a test run loads.
    Every listed file is a regular file and [rglob] lists the files
    below a directory. *)
Definition of_tables (texts : list (Path * string)) (trees : list (string * node))
    (modules : list (string * Path)) (dists : list (string * (string * string)))
    (loaded : list (string * option Path)) : World :=
  {| file_text := assoc texts;
     ast_parse := assoc trees;
     import_module name :=
       match assoc modules name with
       | Some p => Imported (Some p)
       | None => ImportError
       end;
     working_set_find := assoc dists;
     is_file p := bool_decide (is_Some (assoc texts p));
     rglob d := filter (fun p => is_Some (relative_to p d) ∧ p ≠ d) (map fst texts);
     pytest_main _ := loaded |}.

Definition proj : Path := ["proj"].
Definition app_py : Path := ["proj"; "app.py"].
Definition out : Path := ["out"].

(** The collector right after construction. *)
Definition fresh : Collector := init app_py proj (Some out).

(** A file of a virtual environment kept inside the project. *)
Definition venv_file : Path :=
  ["proj"; "venv"; "lib"; "site-packages"; "requests"; "__init__.py"].

(** An installed package below a directory spelled [Site-Packages]. *)
Definition site_packages_file : Path :=
  ["opt"; "Python"; "Lib"; "Site-Packages"; "requests"; "__init__.py"].

(** [app.py] imports [lazy] inside a function body only. *)
Definition lazy_world : World :=
  of_tables
    [ (["proj"; "app.py"], "def f(): import lazy");
      (["proj"; "lazy.py"], "") ]
    [ ("def f(): import lazy",
       Module [FunctionDef "f" [Import [Alias "lazy" None]]]);
      ("", Module []) ]
    [ ("lazy", ["proj"; "lazy.py"]) ]
    [] [].

(** [a] and [b] import each other; [a.json] lies next to them. *)
Definition cycle_world : World :=
  of_tables
    [ (["proj"; "app.py"], "import a");
      (["proj"; "a.py"], "import b");
      (["proj"; "b.py"], "import a");
      (["proj"; "a.json"], "{}") ]
    [ ("import a", Module [Import [Alias "a" None]]);
      ("import b", Module [Import [Alias "b" None]]) ]
    [ ("a", ["proj"; "a.py"]); ("b", ["proj"; "b.py"]) ]
    [] [].

(** The virtual environment lies under the project root. *)
Definition venv_world : World :=
  of_tables
    [ (["proj"; "app.py"], "import requests");
      (["proj"; "venv"; "lib"; "site-packages"; "requests"; "__init__.py"], "") ]
    [ ("import requests", Module [Import [Alias "requests" None]]);
      ("", Module []) ]
    [ ("requests", ["proj"; "venv"; "lib"; "site-packages"; "requests"; "__init__.py"]) ]
    [ ("requests", ("requests", "2.31.0")) ]
    [].

(** [app.py] imports two installed packages; the name of one is a
    prefix of the name of the other. *)
Definition manifest_world : World :=
  of_tables
    [ (["proj"; "app.py"], "import pytest, pytest_cov");
      (["usr"; "lib"; "site-packages"; "pytest"; "__init__.py"], "");
      (["usr"; "lib"; "site-packages"; "pytest_cov"; "__init__.py"], "") ]
    [ ("import pytest, pytest_cov",
       Module [Import [Alias "pytest" None; Alias "pytest_cov" None]]);
      ("", Module []) ]
    [ ("pytest", ["usr"; "lib"; "site-packages"; "pytest"; "__init__.py"]);
      ("pytest_cov", ["usr"; "lib"; "site-packages"; "pytest_cov"; "__init__.py"]) ]
    [ ("pytest", ("pytest", "7.4.0")); ("pytest_cov", ("pytest-cov", "4.1.0")) ]
    [].

(** [app.py] holds relative from-imports only. *)
Definition relative_world : World :=
  of_tables
    [ (["proj"; "pkg"; "app.py"], "from . import z; from .. import y");
      (["proj"; "pkg"; "z.py"], "") ]
    [ ("from . import z; from .. import y",
       Module [ImportFrom None [Alias "z" None] 1; ImportFrom None [Alias "y" None] 2]);
      ("", Module []) ]
    [ ("z", ["proj"; "pkg"; "z.py"]) ]
    [] [].

(** [app.py] does not parse. *)
Definition broken_world : World :=
  of_tables
    [ (["proj"; "app.py"], "import") ]
    [ ]
    [] [] [].

(** The project files that modules of [cycle_world] resolve to. *)
Definition cycle_files : gset Path := {[ ["proj"; "a.py"]; ["proj"; "b.py"] ]}.

(** The collector that a first static walk of [cycle_world] leaves. *)
Definition cycle_collected : Collector :=
  match result (collect_static_dependencies 3 cycle_world fresh app_py) with
  | Done c => c
  | _ => fresh
  end.

(** The tree of [from . import z; from .. import y]. *)
Definition relative_tree : node :=
  Module [ImportFrom None [Alias "z" None] 1; ImportFrom None [Alias "y" None] 2].

(** The tree of [def f(): import lazy]. *)
Definition lazy_tree : node :=
  Module [FunctionDef "f" [Import [Alias "lazy" None]]].

End Host.


(** ** Notions of the specification *)

(** [n] occurs in [tree], at any depth. *)
Inductive subnode : node → node → Prop :=
| subnode_self tree : subnode tree tree
| subnode_child tree child n :
    child ∈ iter_child_nodes tree → subnode child n → subnode tree n.

(** [x] is the first dotted component of [s]: it holds no dot and [s]
    is [x], or [x] followed by a dot and more. *)
Definition no_dot (x : string) : Prop := PyStr.contains "." x = false.

Definition first_dotted_component (s x : string) : Prop :=
  no_dot x ∧ (s = x ∨ ∃ rest, s = x +:+ "." +:+ rest).

(** [x] is the first dotted component of a module name that an import
    statement of [tree] imports: of a name of an [import] statement, or
    of the module of a [from ... import] statement that names one. *)
Inductive imported_top_level (tree : node) (x : string) : Prop :=
| imported_by_import names a :
    subnode tree (Import names) → a ∈ names →
    first_dotted_component (alias_name a) x → imported_top_level tree x
| imported_by_from m names level :
    subnode tree (ImportFrom (Some m) names level) → m ≠ "" →
    first_dotted_component m x → imported_top_level tree x.

(** The only import statements of [tree] are from-imports without a
    module name: [from . import z], [from .. import z]. *)
Definition only_relative_imports (tree : node) : Prop :=
  ∀ n, subnode tree n →
    match n with
    | Import _ => False
    | ImportFrom (Some _) _ _ => False
    | _ => True
    end.

(** The names that one node contributes to the result. *)
Definition contributes (n : node) (x : string) : Prop :=
  match n with
  | Import names => ∃ a, a ∈ names ∧ x = PyStr.split_head "." (alias_name a)
  | ImportFrom (Some m) _ _ => m ≠ "" ∧ x = PyStr.split_head "." m
  | _ => False
  end.

(** [c'] is [c] after more discovery: the same configuration, and
    sets that only grew. *)
Definition same_config (c c' : Collector) : Prop :=
  gateway_path c' = gateway_path c ∧ root_path c' = root_path c
  ∧ output_path c' = output_path c ∧ config_extensions c' = config_extensions c.

(** [s] is a [name==version] string. *)
Definition pinned (s : string) : Prop :=
  ∃ key version, s = key +:+ "==" +:+ version.

Definition grows (c c' : Collector) : Prop :=
  same_config c c'
  ∧ collected_files c ⊆ collected_files c'
  ∧ third_party_packages c ⊆ third_party_packages c'
  ∧ ∀ s, s ∈ third_party_packages c' → s ∈ third_party_packages c ∨ pinned s.

(** [file_path] holds text that does not parse. *)
Definition malformed (w : World) (file_path : Path) : Prop :=
  ∃ text, file_text w file_path = Some text ∧ ast_parse w text = None.

(** An edge of the import graph: [f] parses, one of its import
    statements names a module whose top-level package resolves to
    the file [m], and [m] is project-owned. *)
Definition imports_module (w : World) (c : Collector) (f m : Path) : Prop :=
  ∃ text tree name,
    file_text w f = Some text ∧ ast_parse w text = Some tree
    ∧ imported_top_level tree name
    ∧ import_module w name = Imported (Some m)
    ∧ is_project_module c m = true.

(** The files reachable from the entry point along import edges. *)
Inductive reachable (w : World) (c : Collector) : Path → Prop :=
| reachable_gateway : reachable w c (gateway_path c)
| reachable_import f m :
    reachable w c f → imports_module w c f m → reachable w c m.

(** The import graph is finite: every project-owned file that some
    module name resolves to lies in the finite set [files]. *)
Definition finite_import_graph (w : World) (c : Collector) (files : gset Path) : Prop :=
  ∀ name m, import_module w name = Imported (Some m) →
    is_project_module c m = true → m ∈ files.

(** [x] carries a configuration suffix. *)
Definition config_suffixed (c : Collector) (x : Path) : Prop :=
  PyStr.lower (suffix x) ∈ config_extensions c.

Global Instance config_suffixed_dec c x : Decision (config_suffixed c x).
Proof. unfold config_suffixed. apply _. Defined.

(** No module is backed by a file with a configuration suffix, as on
    every Python host: module files end in [.py], [.pyc], [.so], ... *)
Definition modules_are_code (w : World) (c : Collector) : Prop :=
  ∀ name m, import_module w name = Imported (Some m) → ¬ config_suffixed c m.

(** The files that a configuration sweep from [module_path] adds. *)
Definition config_files (w : World) (c : Collector) (module_path : Path) : gset Path :=
  if is_file w module_path then
    list_to_set (filter (fun f => config_suffixed c f ∧ is_project_module c f = true)
                        (rglob w (parent module_path)))
  else ∅.

(** [file_path] holds text that parses. *)
Definition well_formed (w : World) (file_path : Path) : Prop :=
  ∃ text tree, file_text w file_path = Some text ∧ ast_parse w text = Some tree.

(** What a stretch of the walk guarantees: from collector [c] it handed
    the files [tr] to [analyze_imports] and ended with [res]. *)
Definition walk_post (w : World) (c : Collector) (tr : list Path)
    (res : outcome Collector) : Prop :=
  NoDup tr
  ∧ (∀ x, x ∈ tr → (x ∉ collected_files c) ∧ is_project_module c x = true)
  ∧ (∀ f, f ∈ tr → malformed w f → res = Raise SyntaxError)
  ∧ ∀ c', res = Done c' →
      grows c c'
      ∧ (∀ x, x ∈ tr → x ∈ collected_files c')
      ∧ (∀ f m, f ∈ tr → imports_module w c f m → m ∈ collected_files c')
      ∧ (∀ x, x ∈ collected_files c' →
           x ∈ collected_files c ∨ x ∈ tr ∨ config_suffixed c x).

(** What one call [collect_static_dependencies fuel w c p] guarantees. *)
Definition call_post (w : World) (c : Collector) (p : Path)
    (t : traced Collector) : Prop :=
  (trace t = [] ∧ result t = Timeout)
  ∨ ∃ tr, trace t = p :: tr
      ∧ walk_post w c tr (result t)
      ∧ (malformed w p → result t = Raise SyntaxError)
      ∧ ∀ c', result t = Done c' →
          (∃ text tree, file_text w p = Some text ∧ ast_parse w text = Some tree
             ∧ ∀ name, name ∈ tree_imports tree → import_module w name ≠ ImportRaises)
          ∧ config_files w c p ⊆ collected_files c'
          ∧ ∀ m, imports_module w c p m → m ∈ collected_files c'.

(** The installation-directory test as the specification words it:
    both segments compared case-insensitively. *)
Definition is_venv_module_spec (module_path : Path) : bool :=
  PyStr.contains "venv" (PyStr.lower (str module_path))
  || PyStr.contains "site-packages" (PyStr.lower (str module_path)).

(** [p] lies underneath the root of [c]. *)
Definition under_root (c : Collector) (p : Path) : Prop :=
  ∃ rel, p = join (root_path c) rel.

(** The package name of a manifest line: the text before [==]. *)
Definition line_name (line : string) : string := PyStr.split_head "=" line.

(** ** Notions for the rest of the collector *)

(** [f] passes the filter of [copy_dependencies]. *)
Definition eligible (c : Collector) (f : Path) : Prop :=
  is_project_module c f = true ∧ is_venv_module f = false.

Global Instance eligible_dec c f : Decision (eligible c f).
Proof. unfold eligible. apply _. Defined.

(** [d] names the directory that holds the file [p]; for a file right
    below the anchor that is the anchor itself. *)
Definition held_by (p : Path) (d : string) : Prop :=
  (∃ file, p = [file] ∧ d = "/") ∨ (∃ dir file, p = (dir ++ [d; file])%list).

(** [s] is the [key==version] string of the distribution found under
    the name of the directory that holds the file of an importable
    module, and that file lies in a recognised installation directory. *)
Definition recorded_by (w : World) (s : string) : Prop :=
  ∃ name m d key version,
    import_module w name = Imported (Some m)
    ∧ is_venv_module m = true
    ∧ held_by m d
    ∧ working_set_find w d = Some (key, version)
    ∧ s = key +:+ "==" +:+ version.

(** More hosts to run the collector on. *)
Module Scenario.

(** Every import raises something other than [ImportError]. *)
Definition crash_world : World :=
  {| file_text := file_text Host.cycle_world;
     ast_parse := ast_parse Host.cycle_world;
     import_module := fun _ => ImportRaises;
     working_set_find := working_set_find Host.cycle_world;
     is_file := is_file Host.cycle_world;
     rglob := rglob Host.cycle_world;
     pytest_main := pytest_main Host.cycle_world |}.


(** [app.py] imports nothing that resolves into the project; the tests
    load [lazy.py], an installed package and a built-in module. *)
Definition runtime_world : World :=
  Host.of_tables
    [ (["proj"; "app.py"], "import os, requests");
      (["proj"; "lazy.py"], "");
      (["proj"; "lazy.yaml"], "");
      (["usr"; "lib"; "python3"; "os.py"], "");
      (["usr"; "lib"; "site-packages"; "requests"; "__init__.py"], "") ]
    [ ("import os, requests",
       Module [Import [Alias "os" None; Alias "requests" None]]);
      ("", Module []) ]
    [ ("os", ["usr"; "lib"; "python3"; "os.py"]);
      ("requests", ["usr"; "lib"; "site-packages"; "requests"; "__init__.py"]) ]
    [ ("requests", ("requests", "2.31.0")) ]
    [ ("lazy", Some ["proj"; "lazy.py"]);
      ("sys", None);
      ("yaml", Some ["usr"; "lib"; "site-packages"; "yaml"; "__init__.py"]) ].

(** The collector that the static walk of [runtime_world] leaves. *)
Definition runtime_static : Collector :=
  match result (collect_static_dependencies 2 runtime_world Host.fresh Host.app_py) with
  | Done c => c
  | _ => Host.fresh
  end.


(** A collector whose output directory is the project root: no output
    path was given and the entry point lies right below the root. *)
Definition in_place : Collector :=
  add_file (init Host.app_py Host.proj None) ["proj"; "a.py"].

(** A project kept in a directory whose name holds [venv]. *)
Definition venv_root : Path := ["home"; "dev"; "venv_tools"].


(** The project has a [requirements.txt] of its own at the root. *)
Definition own_requirements : Collector :=
  add_package (add_file Host.fresh ["proj"; "requirements.txt"]) "requests==2.31.0".

Definition own_requirements_world : World :=
  Host.of_tables [ (["proj"; "requirements.txt"], "flask") ] [] [] [] [].

Definition own_requirements_tree : gmap Path content :=
  match copy_dependencies own_requirements_world own_requirements ∅ with
  | Done tree => tree
  | _ => ∅
  end.

(** A collected configuration entry that is a directory. *)
Definition stale : Collector := add_file Host.fresh ["proj"; "data.json"].

(** The collector that the static walk of [Host.venv_world] leaves. *)
Definition venv_collected : Collector :=
  match result (collect_static_dependencies 2 Host.venv_world Host.fresh Host.app_py) with
  | Done c => c
  | _ => Host.fresh
  end.

(** The collector and the output tree that a whole run on
    [runtime_world] leaves. *)
Definition runtime_final : Collector :=
  match main 2 runtime_world Host.app_py Host.proj (Some Host.out) "tests" ∅ with
  | Done r => r.1
  | _ => Host.fresh
  end.

Definition runtime_tree : gmap Path content :=
  match main 2 runtime_world Host.app_py Host.proj (Some Host.out) "tests" ∅ with
  | Done r => r.2
  | _ => ∅
  end.

End Scenario.

(** * Properties *)

(** Decide a closed, decidable statement by evaluation. *)
Ltac by_compute := apply (bool_decide_unpack _); vm_compute; exact I.

(** ** Strings and paths *)

Section Strings.

Lemma app_String c a b : String c a +:+ b = String c (a +:+ b).
Proof. reflexivity. Qed.

Lemma app_empty b : "" +:+ b = b.
Proof. reflexivity. Qed.

Lemma startswith_spec p s :
  PyStr.startswith p s = true ↔ ∃ rest, s = p +:+ rest.
Proof.
  revert s. induction p as [|a p IH]; intros s; simpl.
  - split; [eauto | done].
  - destruct s as [|b s].
    + split; [done | intros [rest H]; discriminate].
    + destruct (Ascii.eqb_spec a b) as [->|Hne].
      * rewrite IH. split; intros [rest H]; exists rest;
          rewrite app_String in *; congruence.
      * split; [done | intros [rest H]; rewrite app_String in H; congruence].
Qed.

Lemma contains_spec needle hay :
  PyStr.contains needle hay = true ↔ ∃ pre post, hay = pre +:+ needle +:+ post.
Proof.
  induction hay as [|c hay IH]; simpl.
  - rewrite orb_false_r, startswith_spec. split.
    + intros [rest H]. exists "", rest. done.
    + intros ([|? pre] & post & H); [eauto | discriminate].
  - rewrite orb_true_iff, startswith_spec, IH. split.
    + intros [[rest H] | (pre & post & H)].
      * exists "", rest. done.
      * exists (String c pre), post. rewrite app_String. by rewrite H.
    + intros ([|a pre] & post & H); rewrite ?app_String, ?app_empty in H.
      * left. eauto.
      * right. exists pre, post. congruence.
Qed.

Lemma lower_app a b : PyStr.lower (a +:+ b) = PyStr.lower a +:+ PyStr.lower b.
Proof.
  induction a as [|c a IH]; [done |].
  rewrite app_String. simpl. by rewrite IH.
Qed.

(** A needle found in the text as it is spelled is found, lowered, in
    the lowered text. *)
Lemma contains_lower needle hay :
  PyStr.contains needle hay = true →
  PyStr.contains (PyStr.lower needle) (PyStr.lower hay) = true.
Proof.
  rewrite !contains_spec. intros (pre & post & ->).
  exists (PyStr.lower pre), (PyStr.lower post). by rewrite !lower_app.
Qed.

Lemma no_dot_String c x : no_dot (String c x) ↔ c ≠ "."%char ∧ no_dot x.
Proof.
  unfold no_dot.
  change (PyStr.contains "." (String c x))
    with ((if Ascii.eqb "." c then true else false) || PyStr.contains "." x).
  destruct (Ascii.eqb_spec "."%char c) as [<-|Hne]; simpl.
  - split; [done | by intros [? _]].
  - split; [done | by intros [_ ?]].
Qed.

Lemma split_head_no_dot s : no_dot (PyStr.split_head "." s).
Proof.
  induction s as [|c s IH]; simpl; [done |].
  destruct (Ascii.eqb_spec c ".") as [->|Hne]; [done |].
  by apply no_dot_String.
Qed.

Lemma split_head_cases s :
  s = PyStr.split_head "." s ∨ ∃ rest, s = PyStr.split_head "." s +:+ "." +:+ rest.
Proof.
  induction s as [|c s IH]; simpl; [by left |].
  destruct (Ascii.eqb_spec c ".") as [->|Hne].
  - right. exists s. done.
  - destruct IH as [IH | [rest IH]].
    + left. by rewrite <- IH.
    + right. exists rest. rewrite app_String. by rewrite <- IH.
Qed.

Lemma split_head_prefix x rest :
  no_dot x → PyStr.split_head "." (x +:+ "." +:+ rest) = x.
Proof.
  induction x as [|c x IH]; [done |].
  intros [Hc Hx]%no_dot_String. rewrite app_String. simpl.
  destruct (Ascii.eqb_spec c ".") as [->|_]; [done |].
  f_equal. by apply IH.
Qed.

Lemma split_head_id x : no_dot x → PyStr.split_head "." x = x.
Proof.
  induction x as [|c x IH]; [done |].
  intros [Hc Hx]%no_dot_String. simpl.
  destruct (Ascii.eqb_spec c ".") as [->|_]; [done |].
  f_equal. by apply IH.
Qed.

(** [s.split('.')[0]] is the first dotted component of [s], and the
    only one. *)
Lemma first_dotted_component_split s x :
  first_dotted_component s x ↔ x = PyStr.split_head "." s.
Proof.
  split.
  - intros [Hx [-> | [rest ->]]].
    + by rewrite split_head_id.
    + by rewrite split_head_prefix.
  - intros ->. split; [apply split_head_no_dot | apply split_head_cases].
Qed.

End Strings.

(** ** Classification of paths *)

Section Classification.

Lemma relative_to_spec p root rel :
  relative_to p root = Some rel ↔ p = join root rel.
Proof.
  unfold join. revert p. induction root as [|r root IH]; intros p; simpl.
  - split; [by intros [= ->] | by intros ->].
  - destruct p as [|x p]; [split; discriminate |].
    destruct (String.eqb_spec r x) as [->|Hne].
    + rewrite IH. split; [by intros -> | by intros [= ->]].
    + split; [discriminate | by intros [= -> _]].
Qed.

Lemma relative_to_under_root c p :
  is_Some (relative_to p (root_path c)) ↔ under_root c p.
Proof.
  unfold under_root. split.
  - intros [rel H]. exists rel. by apply relative_to_spec.
  - intros [rel H]. exists rel. by apply relative_to_spec.
Qed.

(** Whatever the code recognises as an installation directory, the
    case-insensitive test recognises too. *)
Lemma is_venv_module_sound p :
  is_venv_module p = true → is_venv_module_spec p = true.
Proof.
  unfold is_venv_module, is_venv_module_spec.
  rewrite !orb_true_iff. intros [H | H]; [by left |].
  right. by apply (contains_lower "site-packages").
Qed.

(** C2, as the code has it: a path is classified project-owned if and
    only if it lies underneath the project root and is not the
    entry-point path; whether it lies inside a virtual-environment or
    installed-packages directory plays no part in the classification. *)
Theorem C2_project_owned_iff_under_root_and_not_gateway c p :
  is_project_module c p = true ↔ (under_root c p ∧ p ≠ gateway_path c).
Proof.
  rewrite <- relative_to_under_root. unfold is_project_module.
  destruct (decide (p = gateway_path c)) as [->|Hne].
  - split; [done | by intros [_ ?]].
  - destruct (relative_to p (root_path c)) as [rel|].
    + split; [eauto | done].
    + split; [done | by intros [[? ?] _]].
Qed.

(** C2 fails as stated: a file of a virtual environment that lies
    under the project root is classified project-owned, and static
    discovery adds it to the collected files. *)
Lemma C2_venv_file_classified_project_owned :
  under_root Host.fresh Host.venv_file
  ∧ Host.venv_file ≠ gateway_path Host.fresh
  ∧ is_venv_module Host.venv_file = true
  ∧ is_project_module Host.fresh Host.venv_file = true
  ∧ on_done (result (collect_static_dependencies 2 Host.venv_world Host.fresh Host.app_py))
            (fun c => Host.venv_file ∈ collected_files c).
Proof.
  split; [by exists ["venv"; "lib"; "site-packages"; "requests"; "__init__.py"] |].
  split; [done |]. split; [reflexivity |]. split; [reflexivity |].
  by_compute.
Qed.

(** C3: a path below a directory spelled [Site-Packages] is inside an
    installation directory by the case-insensitive test of the
    specification, but [is_venv_module] does not recognise it: only
    the [venv] segment is compared on the lowered path. *)
Theorem C3_site_packages_compared_case_sensitively :
  is_venv_module_spec Host.site_packages_file = true
  ∧ is_venv_module Host.site_packages_file = false
  ∧ is_venv_module (map PyStr.lower Host.site_packages_file) = true.
Proof. repeat split; reflexivity. Qed.

End Classification.

(** ** The import extractor *)

Section Extractor.

(** [ast.walk] yields exactly the nodes that occur in the queue. *)
Lemma walk_queue_elem todo m :
  m ∈ walk_queue todo ↔ ∃ t, t ∈ todo ∧ subnode t m.
Proof.
  revert m. funelim (walk_queue todo); intros m; simp walk_queue.
  - split; [by intros ?%elem_of_nil | by intros (t & ?%elem_of_nil & _)].
  - match goal with IH : ∀ _, _ ↔ _ |- _ => rewrite elem_of_cons, IH end. split.
    + intros [-> | (t & [Ht | Ht]%elem_of_app & Hsub)].
      * exists n. split; [left | constructor].
      * exists t. split; [by right | done].
      * exists n. split; [left | by econstructor].
    + intros (t & [-> | Ht]%elem_of_cons & Hsub).
      * inversion Hsub as [|? child ? Hchild Hsub']; subst; [by left |].
        right. exists child. split; [apply elem_of_app; by right | done].
      * right. exists t. split; [apply elem_of_app; by left | done].
Qed.

Lemma walk_elem tree n : n ∈ walk tree ↔ subnode tree n.
Proof.
  unfold walk. rewrite walk_queue_elem. split.
  - by intros (t & ->%list_elem_of_singleton & H).
  - intros H. exists tree. split; [by apply list_elem_of_singleton | done].
Qed.

Lemma subnode_trans a b c : subnode a b → subnode b c → subnode a c.
Proof. induction 1; [done | econstructor; eauto]. Qed.

Lemma node_imports_elem n imports x :
  x ∈ node_imports n imports ↔ x ∈ imports ∨ contributes n x.
Proof.
  destruct n as [body|f body|names|[m|] names level|children]; simpl;
    try (split; [by left | by intros [? | []]]).
  - revert imports. induction names as [|a names IH]; intros imports; simpl.
    + split; [by left | intros [? | (a & ?%elem_of_nil & _)]; done].
    + rewrite IH. rewrite elem_of_union, elem_of_singleton. split.
      * intros [[-> | ?] | (b & Hb & ->)].
        -- right. exists a. split; [left | done].
        -- by left.
        -- right. exists b. split; [by right | done].
      * intros [? | (b & [-> | Hb]%elem_of_cons & ->)].
        -- left. by right.
        -- left. by left.
        -- right. by exists b.
  - destruct m as [|c m]; simpl.
    + split; [by left | intros [? | [? _]]; done].
    + rewrite elem_of_union, elem_of_singleton. split.
      * intros [-> | ?]; [by right | by left].
      * intros [? | [_ ->]]; [by right | by left].
Qed.

Lemma foldl_node_imports_elem nodes imports x :
  x ∈ foldl (fun acc n => node_imports n acc) imports nodes
  ↔ x ∈ imports ∨ ∃ n, n ∈ nodes ∧ contributes n x.
Proof.
  revert imports. induction nodes as [|n nodes IH]; intros imports; simpl.
  - split; [by left | intros [? | (n & ?%elem_of_nil & _)]; done].
  - rewrite IH, node_imports_elem. split.
    + intros [[? | Hn] | (m & Hm & Hc)].
      * by left.
      * right. exists n. split; [left | done].
      * right. exists m. split; [by right | done].
    + intros [? | (m & [-> | Hm]%elem_of_cons & Hc)].
      * left. by left.
      * left. by right.
      * right. by exists m.
Qed.

Lemma tree_imports_elem tree x :
  x ∈ tree_imports tree ↔ ∃ n, subnode tree n ∧ contributes n x.
Proof.
  unfold tree_imports. rewrite foldl_node_imports_elem. split.
  - intros [?%elem_of_empty | (n & Hn%walk_elem & Hc)]; [done | eauto].
  - intros (n & Hn%walk_elem & Hc). right. eauto.
Qed.

Lemma tree_imports_spec tree x :
  x ∈ tree_imports tree ↔ imported_top_level tree x.
Proof.
  rewrite tree_imports_elem. split.
  - intros (n & Hn & Hc).
    destruct n as [body|f body|names|[m|] names level|children]; simpl in Hc; try done.
    + destruct Hc as (a & Ha & ->).
      eapply imported_by_import; [done..|]. by apply first_dotted_component_split.
    + destruct Hc as [Hm ->].
      eapply imported_by_from; [done..|]. by apply first_dotted_component_split.
  - intros [names a Hn Ha Hx%first_dotted_component_split
           | m names level Hn Hm Hx%first_dotted_component_split].
    + exists (Import names). split; [done |]. by exists a.
    + exists (ImportFrom (Some m) names level). by split.
Qed.

(** C8: on every file that parses, the extractor returns, and the set
    it returns holds exactly the first dotted components of the
    imported module names: [x] for [import x.y] and for
    [from x.y import z], and nothing else. *)
Theorem C8_extractor_returns_first_components w file_path text tree :
  file_text w file_path = Some text →
  ast_parse w text = Some tree →
  ∃ imports, analyze_imports w file_path = Done imports
    ∧ (∀ x, x ∈ imports ↔ imported_top_level tree x)
    ∧ (∀ x y z, no_dot x → first_dotted_component (x +:+ "." +:+ y) z ↔ z = x).
Proof.
  intros Htext Htree. exists (tree_imports tree). split; [| split].
  - unfold analyze_imports. by rewrite Htext, Htree.
  - apply tree_imports_spec.
  - intros x y z Hx. rewrite first_dotted_component_split.
    by rewrite split_head_prefix.
Qed.

End Extractor.

(** ** The collector state *)

Section State.

Global Instance same_config_refl : Reflexive same_config.
Proof. by intros c. Qed.

Global Instance same_config_trans : Transitive same_config.
Proof.
  intros a b c (?&?&?&?) (?&?&?&?). repeat split; congruence.
Qed.

Global Instance grows_refl : Reflexive grows.
Proof. intros c. split; [done |]. split; [done |]. split; [done |]. by left. Qed.

Global Instance grows_trans : Transitive grows.
Proof.
  intros a b c (?&?&?&Hab) (?&?&?&Hbc).
  split; [by etrans |]. split; [by etrans |]. split; [by etrans |].
  intros s [Hs | Hs]%Hbc; [by apply Hab | by right].
Qed.

Lemma grows_add_file c p : grows c (add_file c p).
Proof.
  split; [done |]. split; [simpl; set_solver |]. split; [done |]. by left.
Qed.

Lemma grows_add_package c s : pinned s → grows c (add_package c s).
Proof.
  intros Hs. split; [done |]. split; [done |]. split; [simpl; set_solver |].
  simpl. intros s' [->%elem_of_singleton | ?]%elem_of_union; [by right | by left].
Qed.

Lemma get_package_name_pinned w p s : get_package_name w p = Some s → pinned s.
Proof.
  unfold get_package_name. destruct (parts_m2 p) as [d|]; [| done].
  destruct (working_set_find w d) as [[key version]|]; [| done].
  intros [= <-]. by exists key, version.
Qed.

Lemma is_project_module_config c c' p :
  same_config c c' → is_project_module c' p = is_project_module c p.
Proof. intros (Hg & Hr & _). unfold is_project_module. by rewrite Hg, Hr. Qed.

Lemma is_project_module_gateway c : is_project_module c (gateway_path c) = false.
Proof. unfold is_project_module. by rewrite decide_True. Qed.

Lemma config_suffixed_config c c' x :
  same_config c c' → config_suffixed c' x ↔ config_suffixed c x.
Proof. intros (_ & _ & _ & He). unfold config_suffixed. by rewrite He. Qed.

Lemma imports_module_config w c c' f m :
  same_config c c' → imports_module w c' f m ↔ imports_module w c f m.
Proof.
  intros H. unfold imports_module.
  by setoid_rewrite (is_project_module_config c c' m H).
Qed.

(** What the sweep loop does to the collector. *)
Lemma sweep_loop c files :
  let c' := foldl (fun c file_path =>
              if decide (PyStr.lower (suffix file_path) ∈ config_extensions c) then
                if is_project_module c file_path then add_file c file_path else c
              else c) c files in
  same_config c c'
  ∧ third_party_packages c' = third_party_packages c
  ∧ collected_files c' = collected_files c
      ∪ list_to_set (filter (fun f => config_suffixed c f ∧ is_project_module c f = true) files).
Proof.
  revert c. induction files as [|f files IH]; intros c; simpl.
  - split; [done |]. split; [done |]. set_solver.
  - set (c1 := if decide _ then _ else _).
    assert (Hc1 : same_config c c1 ∧ third_party_packages c1 = third_party_packages c
              ∧ collected_files c1 = collected_files c ∪
                  (if decide (config_suffixed c f ∧ is_project_module c f = true)
                   then {[ f ]} else ∅)).
    { subst c1. unfold config_suffixed.
      destruct (decide (PyStr.lower (suffix f) ∈ config_extensions c)) as [Hs|Hs].
      - destruct (is_project_module c f) eqn:Hp.
        + rewrite decide_True by done. split; [done |]. split; [done |].
          simpl. set_solver.
        + rewrite decide_False by (by intros [_ ?]). split; [done |]. split; [done |].
          set_solver.
      - rewrite decide_False by (by intros [? _]). split; [done |]. split; [done |].
        set_solver. }
    destruct Hc1 as (Hcfg & Hpk & Hfiles).
    destruct (IH c1) as (Hcfg' & Hpk' & Hfiles').
    split; [by etrans |]. split; [congruence |].
    rewrite Hfiles', Hfiles.
    rewrite (list_filter_iff _ (fun f => config_suffixed c f ∧ is_project_module c f = true)).
    2:{ intros x. by rewrite (config_suffixed_config c c1), (is_project_module_config c c1). }
    rewrite filter_cons. case_decide; set_solver.
Qed.

Lemma collect_config_files_spec w c p :
  same_config c (collect_config_files w c p)
  ∧ third_party_packages (collect_config_files w c p) = third_party_packages c
  ∧ collected_files (collect_config_files w c p) = collected_files c ∪ config_files w c p.
Proof.
  unfold collect_config_files, config_files. destruct (is_file w p).
  - apply sweep_loop.
  - split; [done |]. split; [done |]. set_solver.
Qed.

Lemma grows_collect_config_files w c p : grows c (collect_config_files w c p).
Proof.
  destruct (collect_config_files_spec w c p) as (? & Hp & Hf).
  split; [done |]. split; [rewrite Hf; set_solver |]. rewrite Hp.
  split; [done |]. by left.
Qed.

Lemma config_files_config w c c' p :
  same_config c c' → config_files w c' p = config_files w c p.
Proof.
  intros H. unfold config_files. destruct (is_file w p); [| done]. f_equal.
  apply list_filter_iff. intros x.
  by rewrite (config_suffixed_config c c'), (is_project_module_config c c').
Qed.

Lemma config_files_suffixed w c p x :
  x ∈ config_files w c p → config_suffixed c x ∧ is_project_module c x = true.
Proof.
  unfold config_files. destruct (is_file w p); [| set_solver].
  rewrite elem_of_list_to_set, list_elem_of_filter. by intros [? _].
Qed.

Lemma find_module_path_spec w c name :
  match import_module w name with
  | ImportRaises => find_module_path w c name = Raise ImportCrash
  | r => ∃ c', find_module_path w c name
                 = Done (match r with Imported f => f | _ => None end, c')
               ∧ grows c c' ∧ collected_files c' = collected_files c
  end.
Proof.
  unfold find_module_path. destruct (import_module w name) as [| |[m|]]; try done.
  - by exists c.
  - destruct (is_venv_module m); [| by exists c].
    destruct (get_package_name w m) as [pk|] eqn:Hpk; [| by exists c].
    exists (add_package c pk). split; [done |].
    split; [| done]. apply grows_add_package. by apply (get_package_name_pinned w m).
  - by exists c.
Qed.

End State.

(** ** The static graph walker *)

Section Walker.

Context (w : World).

Lemma trace_bind {A B} (m : traced A) (k : A → traced B) :
  trace (m ≫= k)
  = match result m with Done a => (trace m ++ trace (k a))%list | _ => trace m end.
Proof. unfold mbind, traced_bind_inst, traced_bind. by destruct (result m). Qed.

Lemma result_bind {A B} (m : traced A) (k : A → traced B) :
  result (m ≫= k)
  = match result m with
    | Done a => result (k a)
    | Raise e => Raise e
    | Timeout => Timeout
    end.
Proof. unfold mbind, traced_bind_inst, traced_bind. by destruct (result m). Qed.

Lemma walk_post_nil c res :
  (∀ c', res = Done c' → grows c c' ∧ collected_files c' = collected_files c) →
  walk_post w c [] res.
Proof.
  intros H. split; [constructor |]. split; [by intros x ?%elem_of_nil |].
  split; [by intros x ?%elem_of_nil |].
  intros c' Hc'. destruct (H c' Hc') as [Hg Hf]. split; [done |].
  split; [by intros x ?%elem_of_nil |]. split; [by intros f m ?%elem_of_nil |].
  intros x Hx. left. by rewrite <- Hf.
Qed.

(** Two stretches in a row. *)
Lemma walk_post_seq c c1 tr1 tr2 res :
  walk_post w c tr1 (Done c1) → walk_post w c1 tr2 res →
  walk_post w c (tr1 ++ tr2)%list res.
Proof.
  intros (Hnd1 & Hnew1 & Hbad1 & Hdone1) (Hnd2 & Hnew2 & Hbad2 & Hdone2).
  destruct (Hdone1 c1 eq_refl) as (Hg1 & Hin1 & Hcl1 & Hsrc1).
  pose proof Hg1 as (Hcfg1 & Hsub1 & _).
  split; [| split; [| split]].
  - apply NoDup_app. split; [done |]. split; [| done].
    intros x Hx1 Hx2. apply (Hnew2 x Hx2). by apply Hin1.
  - intros x [Hx | Hx]%elem_of_app; [by apply Hnew1 |].
    destruct (Hnew2 x Hx) as [Hnot Hproj]. split; [set_solver |].
    by rewrite <- (is_project_module_config c c1).
  - intros f [Hf | Hf]%elem_of_app Hmal; [| by apply (Hbad2 f)].
    by specialize (Hbad1 f Hf Hmal).
  - intros c' ->. destruct (Hdone2 c' eq_refl) as (Hg2 & Hin2 & Hcl2 & Hsrc2).
    pose proof Hg2 as (Hcfg2 & Hsub2 & _).
    split; [by etrans |]. split; [| split].
    + intros x [Hx | Hx]%elem_of_app; [apply Hsub2; by apply Hin1 | by apply Hin2].
    + intros f m [Hf | Hf]%elem_of_app Hedge.
      * apply Hsub2. by eapply Hcl1.
      * eapply Hcl2; [done |]. by apply (imports_module_config w c c1).
    + intros x Hx. destruct (Hsrc2 x Hx) as [Hx1 | [Hx2 | Hx3]].
      * destruct (Hsrc1 x Hx1) as [? | [? | ?]]; [by left | | by right; right].
        right. left. apply elem_of_app. by left.
      * right. left. apply elem_of_app. by right.
      * right. right. by apply (config_suffixed_config c c1).
Qed.

(** A stretch that starts after a configuration sweep. *)
Lemma walk_post_sweep c p tr res :
  walk_post w (collect_config_files w c p) tr res → walk_post w c tr res.
Proof.
  destruct (collect_config_files_spec w c p) as (Hcfg & _ & Hfiles).
  pose proof (grows_collect_config_files w c p) as Hg.
  set (c1 := collect_config_files w c p) in *.
  intros (Hnd & Hnew & Hbad & Hdone). split; [done |]. split; [| split; [done |]].
  - intros x Hx. destruct (Hnew x Hx) as [Hnot Hproj]. split.
    + rewrite Hfiles in Hnot. set_solver.
    + by rewrite <- (is_project_module_config c c1).
  - intros c' Hc'. destruct (Hdone c' Hc') as (Hg' & Hin & Hcl & Hsrc).
    split; [by etrans |]. split; [done |]. split.
    + intros f m Hf Hedge. eapply Hcl; [done |].
      by apply (imports_module_config w c c1).
    + intros x Hx. destruct (Hsrc x Hx) as [Hx1 | [? | Hx3]]; [| by right; left |].
      * rewrite Hfiles in Hx1. apply elem_of_union in Hx1 as [? | Hx1]; [by left |].
        right. right. by apply (config_files_suffixed w c p).
      * right. right. by apply (config_suffixed_config c c1).
Qed.

(** One turn of the loop over the imports, by what the import of
    [name] does. *)
Lemma for_imports_cons recurse name names c :
  let t := for_imports w recurse (name :: names) c in
  match import_module w name with
  | ImportRaises => trace t = [] ∧ result t = Raise ImportCrash
  | r =>
      ∃ c1, grows c c1 ∧ collected_files c1 = collected_files c ∧
        match r with
        | Imported (Some m) =>
            if decide (is_project_module c m = true ∧ m ∉ collected_files c) then
              let t1 := recurse (collect_config_files w (add_file c1 m) m) m in
              match result t1 with
              | Done c4 =>
                  trace t = (trace t1 ++ trace (for_imports w recurse names c4))%list
                  ∧ result t = result (for_imports w recurse names c4)
              | _ => trace t = trace t1 ∧ result t = result t1
              end
            else trace t = trace (for_imports w recurse names c1)
                 ∧ result t = result (for_imports w recurse names c1)
        | _ => trace t = trace (for_imports w recurse names c1)
               ∧ result t = result (for_imports w recurse names c1)
        end
  end.
Proof.
  intros t. subst t. pose proof (find_module_path_spec w c name) as Hfind.
  cbn [for_imports]. rewrite trace_bind, result_bind. cbn [lift trace result].
  destruct (import_module w name) as [| |[m|]].
  - destruct Hfind as (c1 & -> & Hg & Hf). by exists c1.
  - by rewrite Hfind.
  - destruct Hfind as (c1 & -> & Hg & Hf). exists c1. split; [done |]. split; [done |].
    cbn [app]. rewrite (is_project_module_config c c1) by apply Hg.
    destruct (is_project_module c m) eqn:Hproj.
    + destruct (decide (m ∈ collected_files c1)) as [Hin | Hin].
      * rewrite decide_False by (rewrite <- Hf; by intros [_ ?]). done.
      * rewrite decide_True by (by rewrite <- Hf). cbn zeta.
        rewrite trace_bind, result_bind.
        by destruct (result (recurse _ m)).
    + rewrite decide_False by (by intros [? _]). done.
  - destruct Hfind as (c1 & -> & Hg & Hf). by exists c1.
Qed.

(** The recursive call made for a module found for the first time. *)
Lemma walk_post_call c c1 m t :
  grows c c1 → collected_files c1 = collected_files c →
  m ∉ collected_files c → is_project_module c m = true →
  call_post w (collect_config_files w (add_file c1 m) m) m t →
  walk_post w c (trace t) (result t)
  ∧ ∀ c', result t = Done c' → m ∈ collected_files c'.
Proof.
  intros Hg Hf Hnew Hproj [[-> ->] | (tr & -> & Hpost & Hbad & Hdone)].
  { split; [by apply walk_post_nil | done]. }
  set (c2 := add_file c1 m) in *.
  destruct (collect_config_files_spec w c2 m) as (Hcfg3 & _ & Hfiles3).
  pose proof (grows_collect_config_files w c2 m) as Hg3.
  set (c3 := collect_config_files w c2 m) in *.
  assert (Hg2 : grows c c2) by (etrans; [done | apply grows_add_file]).
  assert (Hgc3 : grows c c3) by (by etrans).
  assert (Hm3 : m ∈ collected_files c3) by (rewrite Hfiles3; simpl; set_solver).
  destruct Hpost as (Hnd & Hnew3 & Hbad3 & Hdone3).
  assert (Hin : ∀ c', result t = Done c' → m ∈ collected_files c').
  { intros c' Hc'. destruct (Hdone3 c' Hc') as ((_ & Hsub & _) & _). by apply Hsub. }
  split; [| done]. split; [| split; [| split]].
  - constructor; [| done]. intros Hm. by apply (Hnew3 m Hm).
  - intros x [-> | Hx]%elem_of_cons; [done |].
    destruct (Hnew3 x Hx) as [Hnot Hp]. split.
    + intros Hxc. apply Hnot. by apply Hgc3.
    + rewrite <- (is_project_module_config c c3); [done | apply Hgc3].
  - intros f [-> | Hf']%elem_of_cons Hmal; [by apply Hbad | by apply (Hbad3 f)].
  - intros c' Hc'. destruct (Hdone3 c' Hc') as (Hg' & Hin' & Hcl & Hsrc).
    destruct (Hdone c' Hc') as (_ & _ & Hclm).
    split; [by etrans |]. split; [| split].
    + intros x [-> | Hx]%elem_of_cons; [by apply Hin | by apply Hin'].
    + intros f m' [-> | Hf']%elem_of_cons Hedge.
      * apply Hclm. apply (imports_module_config w c c3); [apply Hgc3 | done].
      * eapply Hcl; [done |]. apply (imports_module_config w c c3); [apply Hgc3 | done].
    + intros x Hx. destruct (Hsrc x Hx) as [Hx3 | [? | Hx3]].
      * rewrite Hfiles3 in Hx3. apply elem_of_union in Hx3 as [Hx2 | Hx2].
        -- simpl in Hx2. rewrite Hf in Hx2.
           apply elem_of_union in Hx2 as [->%elem_of_singleton | ?]; [| by left].
           right. left. left.
        -- right. right. apply (config_suffixed_config c c2); [apply Hg2 |].
           by apply (config_files_suffixed w c2 m).
      * right. left. by right.
      * right. right. apply (config_suffixed_config c c3); [apply Hgc3 | done].
Qed.

(** What the loop over the imports guarantees when each recursive call
    keeps its promise. *)
Lemma for_imports_post recurse :
  (∀ c p, call_post w c p (recurse c p)) →
  ∀ names c,
    let t := for_imports w recurse names c in
    walk_post w c (trace t) (result t)
    ∧ ∀ c', result t = Done c' →
        ∀ name, name ∈ names →
          import_module w name ≠ ImportRaises
          ∧ ∀ m, import_module w name = Imported (Some m) →
                 is_project_module c m = true → m ∈ collected_files c'.
Proof.
  intros Hrec names. induction names as [|name names IH]; intros c t.
  { subst t. simpl. split; [| by intros c' _ name ?%elem_of_nil].
    apply walk_post_nil. by intros c' [= ->]. }
  pose proof (for_imports_cons recurse name names c) as Hcons.
  fold t in Hcons. cbn zeta in Hcons.
  (* the cases where the loop just goes on from [c1] *)
  assert (Hskip : ∀ c1, grows c c1 → collected_files c1 = collected_files c →
            trace t = trace (for_imports w recurse names c1) →
            result t = result (for_imports w recurse names c1) →
            (∀ m, import_module w name = Imported (Some m) →
                  is_project_module c m = true → m ∈ collected_files c) →
            import_module w name ≠ ImportRaises →
            walk_post w c (trace t) (result t)
            ∧ ∀ c', result t = Done c' →
                ∀ name0, name0 ∈ name :: names →
                  import_module w name0 ≠ ImportRaises
                  ∧ ∀ m, import_module w name0 = Imported (Some m) →
                         is_project_module c m = true → m ∈ collected_files c').
  { intros c1 Hg Hf -> -> Hhead Hok. destruct (IH c1) as [Hpost Hnames]. split.
    - replace (trace (for_imports w recurse names c1))
        with ([] ++ trace (for_imports w recurse names c1))%list by done.
      apply (walk_post_seq c c1); [| done].
      apply walk_post_nil. by intros c' [= <-].
    - intros c' Hc' name0 [-> | Hin]%elem_of_cons.
      + split; [done |]. intros m Hm Hp.
        destruct Hpost as (_ & _ & _ & Hdone).
        destruct (Hdone c' Hc') as ((_ & Hsub & _) & _).
        apply Hsub. rewrite Hf. by apply Hhead.
      + destruct (Hnames c' Hc' name0 Hin) as [Hok0 Hm0]. split; [done |].
        intros m Hm Hp. apply Hm0; [done |].
        rewrite (is_project_module_config c c1); [done | apply Hg]. }
  destruct (import_module w name) as [| |[m|]] eqn:Himp.
  - destruct Hcons as (c1 & Hg & Hf & Htr & Hres). by apply (Hskip c1).
  - destruct Hcons as [Htr Hres]. rewrite Htr, Hres. split.
    + by apply walk_post_nil.
    + done.
  - destruct Hcons as (c1 & Hg & Hf & Hcons).
    destruct (decide (is_project_module c m = true ∧ m ∉ collected_files c))
      as [[Hproj Hnew] | Hold].
    2:{ destruct Hcons as [Htr Hres]. apply (Hskip c1); try done.
        intros m' [= <-] Hp. destruct (decide (m ∈ collected_files c)); [done |].
        by destruct Hold. }
    set (c3 := collect_config_files w (add_file c1 m) m) in *.
    destruct (walk_post_call c c1 m (recurse c3 m) Hg Hf Hnew Hproj (Hrec c3 m))
      as [Hcall Hm].
    destruct (result (recurse c3 m)) as [c4| |] eqn:Hres1.
    + destruct Hcons as [-> ->]. destruct (IH c4) as [Hpost Hnames].
      pose proof Hcall as (_ & _ & _ & Hdone1).
      destruct (Hdone1 c4 eq_refl) as (Hg4 & _).
      split; [by apply (walk_post_seq c c4) |].
      intros c' Hc' name0 [-> | Hin]%elem_of_cons.
      * split; [by rewrite Himp |]. intros m' Hm' _. rewrite Himp in Hm'.
        injection Hm' as <-.
        destruct Hpost as (_ & _ & _ & Hdone).
        destruct (Hdone c' Hc') as ((_ & Hsub & _) & _).
        apply Hsub. by apply Hm.
      * destruct (Hnames c' Hc' name0 Hin) as [Hok0 Hm0]. split; [done |].
        intros m' Hm' Hp. apply Hm0; [done |].
        rewrite (is_project_module_config c c4); [done | apply Hg4].
    + destruct Hcons as [-> ->]. split; [done | done].
    + destruct Hcons as [-> ->]. split; [done | done].
  - destruct Hcons as (c1 & Hg & Hf & Htr & Hres). by apply (Hskip c1).
Qed.

(** What every call of the walker guarantees. *)
Lemma collect_static_dependencies_post fuel c p :
  call_post w c p (collect_static_dependencies fuel w c p).
Proof.
  revert c p. induction fuel as [|fuel IH]; intros c p; [by left |].
  right. cbn [collect_static_dependencies].
  rewrite trace_bind, result_bind. cbn [tell trace result].
  rewrite trace_bind, result_bind. cbn [lift trace result app].
  unfold analyze_imports.
  destruct (file_text w p) as [text|] eqn:Htext.
  2:{ exists []. split; [done |]. split; [by apply walk_post_nil |].
      split; [| done]. intros (text & Ht & _). congruence. }
  destruct (ast_parse w text) as [tree|] eqn:Htree.
  2:{ exists []. split; [done |]. split; [by apply walk_post_nil |]. by split. }
  set (c1 := collect_config_files w c p).
  destruct (for_imports_post _ (IH) (elements (tree_imports tree)) c1)
    as [Hpost Hnames].
  set (t := for_imports w _ _ c1) in *.
  exists (trace t). split; [done |]. split; [by apply (walk_post_sweep c p) |].
  split.
  { intros (text' & Ht & Hp). congruence. }
  intros c' Hc'. destruct Hpost as (_ & _ & _ & Hdone).
  destruct (Hdone c' Hc') as ((_ & Hsub & _) & _).
  destruct (collect_config_files_spec w c p) as (Hcfg & _ & Hfiles). fold c1 in Hcfg, Hfiles.
  split; [| split].
  - exists text, tree. split; [done |]. split; [done |].
    intros name Hname%elem_of_elements. by apply (Hnames c' Hc' name).
  - intros x Hx. apply Hsub. rewrite Hfiles. set_solver.
  - intros m (text' & tree' & name & Ht & Hp & Hname & Hm & Hproj).
    assert (text' = text) as -> by congruence.
    assert (tree' = tree) as -> by congruence.
    apply (Hnames c' Hc' name); [| done |].
    + apply elem_of_elements. by apply tree_imports_spec.
    + by rewrite (is_project_module_config c c1).
Qed.

Lemma finite_import_graph_config c c' files :
  same_config c c' → finite_import_graph w c files → finite_import_graph w c' files.
Proof.
  intros Hcfg Hfin name m Hm Hp. apply (Hfin name m Hm).
  by rewrite <- (is_project_module_config c c').
Qed.

(** The loop returns or raises when each recursive call, made with
    fewer files left to find, does. *)
Lemma for_imports_terminates recurse files n :
  (∀ c p, call_post w c p (recurse c p)) →
  (∀ c p, finite_import_graph w c files →
          (size (files ∖ collected_files c) < n)%nat → result (recurse c p) ≠ Timeout) →
  ∀ names c, finite_import_graph w c files →
    (size (files ∖ collected_files c) ≤ n)%nat →
    result (for_imports w recurse names c) ≠ Timeout.
Proof.
  intros Hpost Hrec names. induction names as [|name names IH]; intros c Hfin Hsize.
  { done. }
  pose proof (for_imports_cons recurse name names c) as Hcons. cbn zeta in Hcons.
  assert (Hskip : ∀ c1, grows c c1 → collected_files c1 = collected_files c →
            result (for_imports w recurse names c1) ≠ Timeout).
  { intros c1 Hg Hf. apply IH.
    - apply (finite_import_graph_config c); [apply Hg | done].
    - by rewrite Hf. }
  destruct (import_module w name) as [| |[m|]] eqn:Himp.
  - destruct Hcons as (c1 & Hg & Hf & _ & ->). by apply Hskip.
  - destruct Hcons as [_ ->]. done.
  - destruct Hcons as (c1 & Hg & Hf & Hcons).
    destruct (decide (is_project_module c m = true ∧ m ∉ collected_files c))
      as [[Hproj Hnew] | Hold].
    2:{ destruct Hcons as [_ ->]. by apply Hskip. }
    set (c3 := collect_config_files w (add_file c1 m) m) in *.
    assert (Hg3 : grows c c3).
    { etrans; [done |]. etrans; [apply grows_add_file |].
      apply grows_collect_config_files. }
    assert (Hm3 : m ∈ collected_files c3).
    { apply (grows_collect_config_files w (add_file c1 m) m). simpl. set_solver. }
    assert (Hm : m ∈ files) by (by apply (Hfin name)).
    assert (Hlt : (size (files ∖ collected_files c3) < n)%nat).
    { eapply Nat.lt_le_trans; [| exact Hsize]. apply subset_size.
      destruct Hg3 as (_ & Hsub & _). set_solver. }
    assert (Hfin3 : finite_import_graph w c3 files).
    { apply (finite_import_graph_config c); [apply Hg3 | done]. }
    specialize (Hrec c3 m Hfin3 Hlt).
    destruct (walk_post_call c c1 m (recurse c3 m) Hg Hf Hnew Hproj (Hpost c3 m))
      as [(_ & _ & _ & Hdone) _].
    destruct (result (recurse c3 m)) as [c4| |] eqn:Hres1; [| | done].
    + destruct Hcons as [_ ->]. destruct (Hdone c4 eq_refl) as (Hg4 & _).
      apply IH.
      * apply (finite_import_graph_config c); [apply Hg4 | done].
      * eapply Nat.le_trans; [| exact Hsize]. apply subseteq_size.
        destruct Hg4 as (_ & Hsub & _). set_solver.
    + destruct Hcons as [_ ->]. done.
  - destruct Hcons as (c1 & Hg & Hf & _ & ->). by apply Hskip.
Qed.

(** Fuel above the number of project files still to be found is enough:
    the walker returns or raises. *)
Lemma collect_static_dependencies_terminates files fuel c p :
  finite_import_graph w c files →
  (size (files ∖ collected_files c) < fuel)%nat →
  result (collect_static_dependencies fuel w c p) ≠ Timeout.
Proof.
  revert c p. induction fuel as [|fuel IH]; intros c p Hfin Hsize; [lia |].
  cbn [collect_static_dependencies].
  rewrite result_bind. cbn [tell trace result].
  rewrite result_bind. cbn [lift trace result].
  destruct (analyze_imports w p) as [imports| |] eqn:Himports; [| done |].
  - pose proof (grows_collect_config_files w c p) as Hg.
    apply (for_imports_terminates _ files fuel).
    + intros c' p'. apply collect_static_dependencies_post.
    + intros c' p'. apply IH.
    + apply (finite_import_graph_config c); [apply Hg | done].
    + apply Nat.lt_succ_r. eapply Nat.le_lt_trans; [| exact Hsize].
      apply subseteq_size. destruct Hg as (_ & Hsub & _). set_solver.
  - unfold analyze_imports in Himports.
    destruct (file_text w p) as [text|]; [| done].
    by destruct (ast_parse w text).
Qed.

End Walker.

(** ** Termination, single visits and completeness of the walk *)

Section Closure.

Context (w : World).

(** C6: on a finite import graph, cycles or not, the static walk from
    the entry point returns or raises once the fuel exceeds the number
    of project files; no file is handed to the import analysis twice;
    and when the walk returns, every file reachable from the entry point
    along import edges has been analysed and is in the collected set,
    which holds each of its files once. *)
Theorem C6_walk_terminates_and_visits_each_file_once
    (gateway root : Path) (output : option Path) (files : gset Path) (fuel : nat) :
  finite_import_graph w (init gateway root output) files →
  modules_are_code w (init gateway root output) →
  (size files < fuel)%nat →
  result (collect_static_dependencies fuel w (init gateway root output) gateway) ≠ Timeout
  ∧ NoDup (trace (collect_static_dependencies fuel w (init gateway root output) gateway))
  ∧ ∀ c', result (collect_static_dependencies fuel w (init gateway root output) gateway)
            = Done c' →
      NoDup (elements (collected_files c'))
      ∧ ∀ m, reachable w (init gateway root output) m →
          m ∈ trace (collect_static_dependencies fuel w (init gateway root output) gateway)
          ∧ m ∈ collected_files c'.
Proof.
  intros Hfin Hcode Hfuel.
  set (c0 := init gateway root output) in *.
  assert (Hterm : result (collect_static_dependencies fuel w c0 gateway) ≠ Timeout).
  { apply (collect_static_dependencies_terminates w files); [done |].
    eapply Nat.le_lt_trans; [| exact Hfuel]. apply subseteq_size. set_solver. }
  split; [done |].
  assert (Hgw : is_project_module c0 gateway = false)
    by apply (is_project_module_gateway c0).
  destruct (collect_static_dependencies_post w fuel c0 gateway)
    as [[_ Hto] | (tr & Htr & Hpost & _ & Hdone)]; [done |].
  rewrite Htr. destruct Hpost as (Hnd & Hnew & _ & Hdone').
  split.
  { constructor; [| done]. intros [_ Hp]%Hnew. congruence. }
  intros c' Hc'. split; [apply NoDup_elements |].
  destruct (Hdone c' Hc') as (_ & _ & Hclg).
  destruct (Hdone' c' Hc') as ((_ & Hsub & _) & Hin & Hcl & Hsrc).
  assert (Hlog : ∀ m, reachable w c0 m → m ∈ gateway :: tr).
  { intros m Hm. induction Hm as [|f m Hf IH Hedge]; [left |].
    assert (Hmc : m ∈ collected_files c').
    { apply elem_of_cons in IH as [-> | IH]; [by apply Hclg | by apply (Hcl f)]. }
    destruct Hedge as (text & tree & name & _ & _ & _ & Himp & Hproj).
    destruct (Hsrc m Hmc) as [Hm0 | [? | Hsuf]]; [| by right |].
    - simpl in Hm0. apply elem_of_singleton in Hm0 as ->. congruence.
    - by destruct (Hcode name m Himp). }
  intros m Hm. split; [by apply Hlog |].
  apply Hlog in Hm. apply elem_of_cons in Hm as [-> | Hm]; [| by apply Hin].
  apply Hsub. simpl. set_solver.
Qed.

(** The loop over imports that are all settled adds nothing. *)
Lemma for_imports_settled recurse names c :
  (∀ name, name ∈ names →
     import_module w name ≠ ImportRaises
     ∧ ∀ m, import_module w name = Imported (Some m) →
            is_project_module c m = true → m ∈ collected_files c) →
  trace (for_imports w recurse names c) = []
  ∧ ∃ c', result (for_imports w recurse names c) = Done c'
          ∧ grows c c' ∧ collected_files c' = collected_files c.
Proof.
  revert c. induction names as [|name names IH]; intros c Hnames.
  { split; [done |]. by exists c. }
  pose proof (for_imports_cons w recurse name names c) as Hcons. cbn zeta in Hcons.
  destruct (Hnames name) as [Hok Hm]; [left |].
  assert (Hnext : ∀ c1, grows c c1 → collected_files c1 = collected_files c →
            trace (for_imports w recurse names c1) = []
            ∧ ∃ c', result (for_imports w recurse names c1) = Done c'
                    ∧ grows c c' ∧ collected_files c' = collected_files c).
  { intros c1 Hg Hf. destruct (IH c1) as (Htr & c' & Hres & Hg' & Hf').
    - intros name0 Hin. destruct (Hnames name0) as [Hok0 Hm0]; [by right |].
      split; [done |]. intros m Himp Hproj. rewrite Hf. apply Hm0; [done |].
      rewrite <- (is_project_module_config c c1); [done | apply Hg].
    - split; [done |]. exists c'. split; [done |]. split; [by etrans | congruence]. }
  destruct (import_module w name) as [| |[m|]] eqn:Himp; [| done | |].
  - destruct Hcons as (c1 & Hg & Hf & -> & ->). by apply Hnext.
  - destruct Hcons as (c1 & Hg & Hf & Hcons).
    rewrite decide_False in Hcons.
    + destruct Hcons as [-> ->]. by apply Hnext.
    + intros [Hproj Hnew]. apply Hnew. by apply Hm.
  - destruct Hcons as (c1 & Hg & Hf & -> & ->). by apply Hnext.
Qed.

(** C7: a second static walk from the entry point, started from the
    collector that a first walk left, returns with the same collected
    files; it analyses the entry point again and nothing else. *)
Theorem C7_second_walk_changes_nothing (c0 c1 : Collector) (fuel fuel' : nat) :
  result (collect_static_dependencies fuel w c0 (gateway_path c0)) = Done c1 →
  trace (collect_static_dependencies (S fuel') w c1 (gateway_path c0)) = [gateway_path c0]
  ∧ ∃ c2, result (collect_static_dependencies (S fuel') w c1 (gateway_path c0)) = Done c2
          ∧ collected_files c2 = collected_files c1.
Proof.
  intros Hrun. set (gw := gateway_path c0) in *.
  destruct (collect_static_dependencies_post w fuel c0 gw)
    as [[_ Hto] | (tr & _ & Hpost & _ & Hdone)]; [congruence |].
  destruct (Hdone c1 Hrun) as ((text & tree & Htext & Htree & Hok) & Hconf & Hcl).
  destruct Hpost as (_ & _ & _ & Hdone'). destruct (Hdone' c1 Hrun) as (Hg & _).
  cbn [collect_static_dependencies].
  rewrite !trace_bind, !result_bind. cbn [tell lift trace result].
  rewrite ?trace_bind, ?result_bind. cbn [tell lift trace result].
  unfold analyze_imports. rewrite Htext, Htree. cbn [app].
  destruct (collect_config_files_spec w c1 gw) as (Hcfg & _ & Hfiles).
  set (c1' := collect_config_files w c1 gw) in *.
  assert (Hsame : collected_files c1' = collected_files c1).
  { rewrite Hfiles, (config_files_config w c0 c1); [set_solver | apply Hg]. }
  destruct (for_imports_settled (collect_static_dependencies fuel' w)
              (elements (tree_imports tree)) c1') as (-> & c2 & -> & _ & Hf2).
  { intros name Hname%elem_of_elements. split; [by apply Hok |].
    intros m Himp Hproj. rewrite Hsame. apply Hcl.
    exists text, tree, name. split; [done |]. split; [done |].
    split; [by apply tree_imports_spec |]. split; [done |].
    rewrite <- Hproj. symmetry. apply is_project_module_config.
    etrans; [apply Hg | done]. }
  split; [done |]. exists c2. split; [done | congruence].
Qed.

(** C9: text that does not parse makes the extractor raise
    [SyntaxError]; a walk that hands such a file to the extractor ends
    with that error, and so does the whole run, which then copies
    nothing; on text that parses the extractor returns. *)
Theorem C9_parse_error_aborts_the_run (p : Path) (text : string) :
  file_text w p = Some text →
  (ast_parse w text = None →
     analyze_imports w p = Raise SyntaxError
     ∧ (∀ fuel c start,
          p ∈ trace (collect_static_dependencies fuel w c start) →
          result (collect_static_dependencies fuel w c start) = Raise SyntaxError)
     ∧ (∀ fuel gateway root output tests tree,
          p ∈ trace (collect_static_dependencies fuel w (init gateway root output) gateway) →
          main fuel w gateway root output tests tree = Raise SyntaxError))
  ∧ (∀ tree, ast_parse w text = Some tree →
       analyze_imports w p = Done (tree_imports tree)).
Proof.
  intros Htext. split.
  - intros Hparse.
    assert (Hmal : malformed w p) by (by exists text).
    assert (Hwalk : ∀ fuel c start,
              p ∈ trace (collect_static_dependencies fuel w c start) →
              result (collect_static_dependencies fuel w c start) = Raise SyntaxError).
    { intros fuel c start Hin.
      destruct (collect_static_dependencies_post w fuel c start)
        as [[Htr _] | (tr & Htr & Hpost & Hhead & _)]; rewrite Htr in Hin.
      - by apply elem_of_nil in Hin.
      - apply elem_of_cons in Hin as [-> | Hin]; [by apply Hhead |].
        destruct Hpost as (_ & _ & Hbad & _). by apply (Hbad p). }
    split; [| split; [done |]].
    + unfold analyze_imports. by rewrite Htext, Hparse.
    + intros fuel gateway root output tests tree Hin.
      unfold main. cbn zeta. cbn [init gateway_path].
      by rewrite (Hwalk fuel _ gateway Hin).
  - intros tree Hparse. unfold analyze_imports. by rewrite Htext, Hparse.
Qed.

End Closure.

(** ** Imports that the extractor sees and does not see *)

Section Imports.

Context (w : World).

(** C4, as the code has it: an import statement nested inside a
    function body is seen by static import scanning, because [ast.walk]
    visits every node of the tree.  The extractor returns the top-level
    name of the module, and a static walk that returns has collected
    the file it resolves to when that file is project-owned. *)
Theorem C4_import_in_function_body_is_found_statically
    (p : Path) (text : string) (tree : node) (f : string) (body : list node)
    (names : list alias) (a : alias) (m : Path) (c : Collector) :
  file_text w p = Some text →
  ast_parse w text = Some tree →
  subnode tree (FunctionDef f body) →
  Import names ∈ body →
  a ∈ names →
  import_module w (PyStr.split_head "." (alias_name a)) = Imported (Some m) →
  is_project_module c m = true →
  (∃ imports, analyze_imports w p = Done imports
              ∧ PyStr.split_head "." (alias_name a) ∈ imports)
  ∧ ∀ fuel c', result (collect_static_dependencies fuel w c p) = Done c' →
               m ∈ collected_files c'.
Proof.
  intros Htext Htree Hfun Hbody Ha Himp Hproj.
  assert (Hname : PyStr.split_head "." (alias_name a) ∈ tree_imports tree).
  { apply tree_imports_elem. exists (Import names). split; [| by exists a].
    apply (subnode_trans _ (FunctionDef f body)); [done |].
    apply (subnode_child _ (Import names)); [done | constructor]. }
  split.
  - exists (tree_imports tree). split; [| done].
    unfold analyze_imports. by rewrite Htext, Htree.
  - intros fuel c' Hrun.
    destruct (collect_static_dependencies_post w fuel c p)
      as [[_ Hto] | (tr & _ & _ & _ & Hdone)]; [congruence |].
    destruct (Hdone c' Hrun) as (_ & _ & Hcl). apply Hcl.
    exists text, tree, (PyStr.split_head "." (alias_name a)).
    split; [done |]. split; [done |]. split; [by apply tree_imports_spec | done].
Qed.

Lemma only_relative_imports_empty tree :
  only_relative_imports tree → tree_imports tree = ∅.
Proof.
  intros Honly. apply elem_of_equiv_empty_L. intros x (n & Hn & Hc)%tree_imports_elem.
  specialize (Honly n Hn).
  by destruct n as [body|f body|names|[m|] names level|children].
Qed.

(** C10: a from-import without a module name, [from . import z] or
    [from .. import z], adds no name to the result of the extractor; a
    file whose only import statements are of that form yields the empty
    set, so the walk analyses that file and goes no further. *)
Theorem C10_relative_from_imports_are_ignored
    (p : Path) (text : string) (tree : node) (c : Collector) (fuel : nat) :
  file_text w p = Some text →
  ast_parse w text = Some tree →
  only_relative_imports tree →
  (∀ names level imports, node_imports (ImportFrom None names level) imports = imports)
  ∧ analyze_imports w p = Done ∅
  ∧ trace (collect_static_dependencies (S fuel) w c p) = [p]
  ∧ result (collect_static_dependencies (S fuel) w c p)
    = Done (collect_config_files w c p).
Proof.
  intros Htext Htree Honly. apply only_relative_imports_empty in Honly.
  assert (Han : analyze_imports w p = Done ∅).
  { unfold analyze_imports. by rewrite Htext, Htree, Honly. }
  split; [done |]. split; [done |].
  cbn [collect_static_dependencies].
  rewrite !trace_bind, !result_bind. cbn [tell lift trace result].
  rewrite ?trace_bind, ?result_bind. cbn [tell lift trace result].
  rewrite Han, elements_empty. done.
Qed.

End Imports.

(** C4 fails as stated: [lazy] is imported inside a function body only,
    and the extractor returns it; the static walk alone, with no test
    run, collects [lazy.py]. *)
Lemma C4_static_walk_alone_collects_lazy :
  on_done (analyze_imports Host.lazy_world Host.app_py) (fun imports => "lazy" ∈ imports)
  ∧ on_done (result (collect_static_dependencies 2 Host.lazy_world Host.fresh Host.app_py))
            (fun c => ["proj"; "lazy.py"] ∈ collected_files c).
Proof. split; by_compute. Qed.

(** ** The bundle *)

Section Bundle.

Context (w : World).

(** Copying leaves alone every path that is not the target of a file
    to copy. *)
Lemma copy_files_other c files tree tree' dst :
  copy_files w c files tree = Done tree' →
  (∀ f rel, f ∈ files → is_project_module c f = true →
            relative_to f (root_path c) = Some rel → join (output_path c) rel ≠ dst) →
  tree' !! dst = tree !! dst.
Proof.
  revert tree. induction files as [|f files IH]; intros tree Hcopy Hdst.
  { by injection Hcopy as <-. }
  assert (Hrest : ∀ f' rel, f' ∈ files → is_project_module c f' = true →
            relative_to f' (root_path c) = Some rel → join (output_path c) rel ≠ dst).
  { intros f' rel Hin. apply Hdst. by right. }
  cbn [copy_files] in Hcopy.
  destruct (is_project_module c f) eqn:Hproj; [| by apply IH].
  destruct (negb (is_venv_module f)); cbn [andb] in Hcopy; [| by apply IH].
  destruct (relative_to f (root_path c)) as [rel|] eqn:Hrel; [| by apply IH].
  unfold copy2 in Hcopy. destruct (is_file w f); [| done].
  destruct (decide (f = join (output_path c) rel)); [done |].
  cbn in Hcopy. rewrite (IH _ Hcopy Hrest).
  apply lookup_insert_ne. apply (Hdst f rel); [left | done..].
Qed.

(** No run copies the entry point: the place of its copy in the output
    tree is left as it was. *)
Lemma copy_files_never_gateway c files tree tree' rel :
  relative_to (gateway_path c) (root_path c) = Some rel →
  copy_files w c files tree = Done tree' →
  tree' !! join (output_path c) rel = tree !! join (output_path c) rel.
Proof.
  intros Hrel Hcopy. apply (copy_files_other c files); [done |].
  intros f rel' _ Hproj Hrel' Heq.
  apply app_inv_head in Heq as ->.
  apply relative_to_spec in Hrel, Hrel'.
  rewrite Hrel', <- Hrel in Hproj.
  by rewrite is_project_module_gateway in Hproj.
Qed.

(** Whatever is copied is project-owned and outside every recognised
    installation directory. *)
Lemma copy_files_sources c files tree tree' dst src :
  copy_files w c files tree = Done tree' →
  tree' !! dst = Some (CopyOf src) →
  tree !! dst = Some (CopyOf src)
  ∨ (src ∈ files ∧ is_project_module c src = true ∧ is_venv_module src = false).
Proof.
  revert tree. induction files as [|f files IH]; intros tree Hcopy Hdst.
  { injection Hcopy as <-. by left. }
  assert (Hrest : ∀ tree0, copy_files w c files tree0 = Done tree' →
            tree0 !! dst = Some (CopyOf src)
            ∨ (src ∈ f :: files ∧ is_project_module c src = true
               ∧ is_venv_module src = false)).
  { intros tree0 H0. destruct (IH tree0 H0 Hdst) as [? | (? & ? & ?)]; [by left |].
    right. split; [by right | done]. }
  cbn [copy_files] in Hcopy.
  destruct (is_project_module c f) eqn:Hproj; [| by apply Hrest].
  destruct (is_venv_module f) eqn:Hvenv; cbn [andb negb] in Hcopy; [by apply Hrest |].
  destruct (relative_to f (root_path c)) as [rel|] eqn:Hrel; [| by apply Hrest].
  unfold copy2 in Hcopy. destruct (is_file w f); [| done].
  destruct (decide (f = join (output_path c) rel)); [done |].
  cbn in Hcopy. destruct (Hrest _ Hcopy) as [Hin | ?]; [| by right].
  destruct (decide (join (output_path c) rel = dst)) as [<- | Hne].
  - rewrite lookup_insert_eq in Hin. injection Hin as <-.
    right. split; [left | done].
  - rewrite lookup_insert_ne in Hin by done. by left.
Qed.

(** C1: the entry point is in the collected files from construction on,
    and lies under the project root, yet the run leaves no copy of it in
    the output tree, while the modules it imports are copied:
    [copy_dependencies] copies only what [is_project_module] accepts,
    and that test rejects the entry point. *)
Theorem C1_entry_point_collected_but_not_copied :
  Host.app_py ∈ collected_files Host.fresh
  ∧ relative_to Host.app_py Host.proj = Some ["app.py"]
  ∧ is_venv_module Host.app_py = false
  ∧ on_done (main 3 Host.cycle_world Host.app_py Host.proj (Some Host.out) "tests" ∅)
      (fun r => Host.app_py ∈ collected_files r.1
                ∧ r.2 !! join Host.out ["app.py"] = None
                ∧ r.2 !! join Host.out ["a.py"] = Some (CopyOf ["proj"; "a.py"])).
Proof.
  split; [by_compute |]. split; [reflexivity |]. split; [reflexivity |]. by_compute.
Qed.

Lemma manifest_lines_sorted c : Sorted String.le (manifest_lines c).
Proof. apply (Sorted_merge_sort String.le). Qed.

Lemma manifest_lines_perm c : manifest_lines c ≡ₚ elements (third_party_packages c).
Proof. apply merge_sort_Permutation. Qed.

(** C5, as the code has it: [requirements.txt] is written at the output
    root if and only if some package was recorded; what is written is one
    line per recorded package string, each line once, the lines in
    code-point order of the whole [name==version] line; and every string
    that a walk records is such a [name==version] string. *)
Theorem C5_manifest_written_iff_packages_sorted_as_lines (c : Collector) :
  (is_Some (create_requirements_txt c) ↔ third_party_packages c ≠ ∅)
  ∧ (∀ file, create_requirements_txt c = Some file →
       file = (join (output_path c) ["requirements.txt"],
               foldr (fun line text => line +:+ newline +:+ text) "" (manifest_lines c)))
  ∧ (∀ line, line ∈ manifest_lines c ↔ line ∈ third_party_packages c)
  ∧ NoDup (manifest_lines c)
  ∧ Sorted String.le (manifest_lines c)
  ∧ (∀ fuel gateway root output c',
       result (collect_static_dependencies fuel w (init gateway root output) gateway)
         = Done c' →
       ∀ line, line ∈ third_party_packages c' → pinned line).
Proof.
  split; [| split; [| split; [| split; [| split]]]].
  - unfold create_requirements_txt.
    destruct (decide (third_party_packages c = ∅)) as [He | Hne].
    + split; [by intros [? ?] | done].
    + split; [done | eauto].
  - unfold create_requirements_txt, requirements_path. intros file.
    destruct (decide (third_party_packages c = ∅)); [done | by intros [= <-]].
  - intros line. rewrite (manifest_lines_perm c). apply elem_of_elements.
  - rewrite (manifest_lines_perm c). apply NoDup_elements.
  - apply manifest_lines_sorted.
  - intros fuel gateway root output c' Hrun line Hline.
    destruct (collect_static_dependencies_post w fuel (init gateway root output) gateway)
      as [[_ Hto] | (tr & _ & Hpost & _ & _)]; [congruence |].
    destruct Hpost as (_ & _ & _ & Hdone).
    destruct (Hdone c' Hrun) as ((_ & _ & _ & Hpk) & _).
    destruct (Hpk line Hline) as [Hin | ?]; [| done].
    simpl in Hin. by apply elem_of_empty in Hin.
Qed.

End Bundle.

(** C5 fails as stated: with the packages [pytest] and [pytest-cov]
    recorded, the line of [pytest-cov] is written before the line of
    [pytest], so the lines are not in the order of the package names. *)
Lemma C5_manifest_not_sorted_by_package_name :
  on_done (main 2 Host.manifest_world Host.app_py Host.proj (Some Host.out) "tests" ∅)
    (fun r => manifest_lines r.1 = ["pytest-cov==4.1.0"; "pytest==7.4.0"]
              ∧ line_name <$> manifest_lines r.1 = ["pytest-cov"; "pytest"]
              ∧ ¬ Sorted String.le (line_name <$> manifest_lines r.1)
              ∧ r.2 !! join Host.out ["requirements.txt"]
                = Some (Text ("pytest-cov==4.1.0" +:+ newline
                              +:+ "pytest==7.4.0" +:+ newline))).
Proof. by_compute. Qed.

(** ** The theorems at work on small hosts *)

Lemma cycle_world_finite :
  finite_import_graph Host.cycle_world (init Host.app_py Host.proj (Some Host.out))
    Host.cycle_files.
Proof.
  intros name m Himp _. cbn in Himp.
  repeat match type of Himp with
         | context [decide ?P] => destruct (decide P)
         end; try discriminate Himp; injection Himp as <-; by_compute.
Qed.

Lemma cycle_world_code :
  modules_are_code Host.cycle_world (init Host.app_py Host.proj (Some Host.out)).
Proof.
  intros name m Himp. cbn in Himp.
  repeat match type of Himp with
         | context [decide ?P] => destruct (decide P)
         end; try discriminate Himp; injection Himp as <-; by_compute.
Qed.

Lemma relative_tree_only_relative : only_relative_imports Host.relative_tree.
Proof.
  intros n Hn%walk_elem. vm_compute in Hn.
  repeat (apply elem_of_cons in Hn as [-> | Hn]; [done |]).
  by apply elem_of_nil in Hn.
Qed.

Lemma lazy_tree_subnode :
  subnode Host.lazy_tree (FunctionDef "f" [Import [Alias "lazy" None]]).
Proof. eapply subnode_child; [| apply subnode_self]. simpl. left. Qed.

(** C8 on [app.py] of the cycle host, whose text is [import a]. *)
Lemma C8_extractor_on_app :
  file_text Host.cycle_world Host.app_py = Some "import a"
  ∧ ast_parse Host.cycle_world "import a" = Some (Module [Import [Alias "a" None]])
  ∧ ∃ imports, analyze_imports Host.cycle_world Host.app_py = Done imports
      ∧ (∀ x, x ∈ imports ↔ imported_top_level (Module [Import [Alias "a" None]]) x)
      ∧ (∀ x y z, no_dot x → first_dotted_component (x +:+ "." +:+ y) z ↔ z = x).
Proof.
  split; [reflexivity |]. split; [reflexivity |].
  apply (C8_extractor_returns_first_components Host.cycle_world Host.app_py "import a");
    reflexivity.
Defined.

(** C6 on the cycle host: [a] and [b] import each other. *)
Lemma C6_walk_of_the_cycle :
  (size Host.cycle_files < 3)%nat
  ∧ result (collect_static_dependencies 3 Host.cycle_world
              (init Host.app_py Host.proj (Some Host.out)) Host.app_py) ≠ Timeout
  ∧ NoDup (trace (collect_static_dependencies 3 Host.cycle_world
                    (init Host.app_py Host.proj (Some Host.out)) Host.app_py))
  ∧ ∀ c', result (collect_static_dependencies 3 Host.cycle_world
                    (init Host.app_py Host.proj (Some Host.out)) Host.app_py) = Done c' →
      NoDup (elements (collected_files c'))
      ∧ ∀ m, reachable Host.cycle_world (init Host.app_py Host.proj (Some Host.out)) m →
          m ∈ trace (collect_static_dependencies 3 Host.cycle_world
                       (init Host.app_py Host.proj (Some Host.out)) Host.app_py)
          ∧ m ∈ collected_files c'.
Proof.
  assert (Hsize : (size Host.cycle_files < 3)%nat) by (vm_compute; lia).
  split; [exact Hsize |].
  exact (C6_walk_terminates_and_visits_each_file_once Host.cycle_world
           Host.app_py Host.proj (Some Host.out) Host.cycle_files 3
           cycle_world_finite cycle_world_code Hsize).
Defined.

(** C7 on the cycle host: a second walk after a first one. *)
Lemma C7_second_walk_of_the_cycle :
  result (collect_static_dependencies 3 Host.cycle_world Host.fresh
            (gateway_path Host.fresh)) = Done Host.cycle_collected
  ∧ trace (collect_static_dependencies 1 Host.cycle_world Host.cycle_collected
             (gateway_path Host.fresh)) = [gateway_path Host.fresh]
  ∧ ∃ c2, result (collect_static_dependencies 1 Host.cycle_world Host.cycle_collected
                    (gateway_path Host.fresh)) = Done c2
          ∧ collected_files c2 = collected_files Host.cycle_collected.
Proof.
  assert (Hrun : result (collect_static_dependencies 3 Host.cycle_world Host.fresh
                           (gateway_path Host.fresh)) = Done Host.cycle_collected)
    by (vm_compute; reflexivity).
  split; [exact Hrun |].
  exact (C7_second_walk_changes_nothing Host.cycle_world Host.fresh
           Host.cycle_collected 3 0 Hrun).
Defined.

(** C9 on a host whose entry point holds the text [import]. *)
Lemma C9_broken_entry_point :
  file_text Host.broken_world Host.app_py = Some "import"
  ∧ (ast_parse Host.broken_world "import" = None →
       analyze_imports Host.broken_world Host.app_py = Raise SyntaxError
       ∧ (∀ fuel c start,
            Host.app_py ∈ trace (collect_static_dependencies fuel Host.broken_world c start) →
            result (collect_static_dependencies fuel Host.broken_world c start)
            = Raise SyntaxError)
       ∧ (∀ fuel gateway root output tests tree,
            Host.app_py ∈ trace (collect_static_dependencies fuel Host.broken_world
                                   (init gateway root output) gateway) →
            main fuel Host.broken_world gateway root output tests tree
            = Raise SyntaxError))
  ∧ (∀ tree, ast_parse Host.broken_world "import" = Some tree →
       analyze_imports Host.broken_world Host.app_py = Done (tree_imports tree)).
Proof.
  split; [reflexivity |].
  apply (C9_parse_error_aborts_the_run Host.broken_world Host.app_py "import").
  reflexivity.
Defined.

(** C10 on a file that holds [from . import z; from .. import y]. *)
Lemma C10_relative_imports_of_app :
  only_relative_imports Host.relative_tree
  ∧ (∀ names level imports, node_imports (ImportFrom None names level) imports = imports)
  ∧ analyze_imports Host.relative_world ["proj"; "pkg"; "app.py"] = Done ∅
  ∧ trace (collect_static_dependencies 1 Host.relative_world Host.fresh
             ["proj"; "pkg"; "app.py"]) = [["proj"; "pkg"; "app.py"]]
  ∧ result (collect_static_dependencies 1 Host.relative_world Host.fresh
              ["proj"; "pkg"; "app.py"])
    = Done (collect_config_files Host.relative_world Host.fresh ["proj"; "pkg"; "app.py"]).
Proof.
  split; [exact relative_tree_only_relative |].
  apply (C10_relative_from_imports_are_ignored Host.relative_world
           ["proj"; "pkg"; "app.py"] "from . import z; from .. import y"
           Host.relative_tree Host.fresh 0);
    [reflexivity | reflexivity | exact relative_tree_only_relative].
Defined.

(** C4 on a file that holds [def f(): import lazy]. *)
Lemma C4_lazy_import_of_app :
  is_project_module Host.fresh ["proj"; "lazy.py"] = true
  ∧ (∃ imports, analyze_imports Host.lazy_world Host.app_py = Done imports
                ∧ PyStr.split_head "." (alias_name (Alias "lazy" None)) ∈ imports)
  ∧ ∀ fuel c',
      result (collect_static_dependencies fuel Host.lazy_world Host.fresh Host.app_py)
      = Done c' →
      ["proj"; "lazy.py"] ∈ collected_files c'.
Proof.
  split; [reflexivity |].
  apply (C4_import_in_function_body_is_found_statically Host.lazy_world
           Host.app_py "def f(): import lazy" Host.lazy_tree "f"
           [Import [Alias "lazy" None]] [Alias "lazy" None] (Alias "lazy" None)
           ["proj"; "lazy.py"] Host.fresh);
    [reflexivity | reflexivity | exact lazy_tree_subnode
    | apply list_elem_of_singleton; reflexivity
    | apply list_elem_of_singleton; reflexivity
    | reflexivity | reflexivity].
Defined.

(** * The rest of the collector *)

(** ** The installation-directory heuristic along a path *)

Section Heuristic.

Lemma string_app_assoc a b c : (a +:+ b) +:+ c = a +:+ (b +:+ c).
Proof.
  induction a as [|x a IH]; [done |]. rewrite !app_String. by rewrite IH.
Qed.

Lemma contains_app_r needle hay more :
  PyStr.contains needle hay = true → PyStr.contains needle (hay +:+ more) = true.
Proof.
  rewrite !contains_spec. intros (pre & post & ->).
  exists pre, (post +:+ more). by rewrite !string_app_assoc.
Qed.

Lemma join_app d rel :
  d ≠ [] → rel ≠ [] →
  PyStr.join "/" (d ++ rel) = PyStr.join "/" d +:+ "/" +:+ PyStr.join "/" rel.
Proof.
  intros Hd Hrel. induction d as [|x d IH]; [done |].
  destruct d as [|y d].
  - destruct rel as [|z rel]; [done |]. reflexivity.
  - change (PyStr.join "/" ((x :: y :: d) ++ rel))
      with (x +:+ "/" +:+ PyStr.join "/" ((y :: d) ++ rel)).
    rewrite IH by done.
    change (PyStr.join "/" (x :: y :: d)) with (x +:+ "/" +:+ PyStr.join "/" (y :: d)).
    by rewrite !string_app_assoc.
Qed.

Lemma str_app d rel :
  d ≠ [] → ∃ more, str (join d rel) = str d +:+ more.
Proof.
  intros Hd. unfold str, join. destruct rel as [|z rel].
  - exists "". rewrite app_nil_r. clear. generalize ("/" +:+ PyStr.join "/" d).
    intros s. induction s as [|x s IH]; [done |]. rewrite app_String. by rewrite <- IH.
  - exists ("/" +:+ PyStr.join "/" (z :: rel)).
    rewrite join_app by done. by rewrite !string_app_assoc.
Qed.

(** X1: Every path below a directory that the heuristic recognises is
    recognised too. *)
Theorem is_venv_module_below (d rel : Path) :
  is_venv_module d = true → is_venv_module (join d rel) = true.
Proof.
  intros Hd. destruct d as [|x d]; [done |].
  destruct (str_app (x :: d) rel) as [more Hmore]; [done |].
  unfold is_venv_module in *. rewrite Hmore, lower_app.
  apply orb_true_iff in Hd as [Hd | Hd]; apply orb_true_iff.
  - left. by apply contains_app_r.
  - right. by apply contains_app_r.
Qed.

(** The heuristic at work on a project kept in [venv_tools]. *)
Lemma is_venv_module_below_venv_tools :
  is_venv_module Scenario.venv_root = true
  ∧ is_venv_module (join Scenario.venv_root ["pkg"; "util.py"]) = true.
Proof.
  split; [reflexivity |].
  apply (is_venv_module_below Scenario.venv_root ["pkg"; "util.py"]). reflexivity.
Defined.

End Heuristic.

(** ** Resolving a module and recording its package *)

Section Resolver.

Context (w : World).

Lemma parts_m2_held_by p d : parts_m2 p = Some d ↔ held_by p d.
Proof.
  unfold parts_m2, parts, held_by.
  destruct p as [|file p _] using rev_ind; [cbn; split; [done | intros [(? & ? & _) | (dir & ? & H)]; [done |]]; by destruct dir as [|? [|? ?]] |].
  destruct p as [|d' p _] using rev_ind.
  - cbn. split.
    + intros [= <-]. left. by exists file.
    + intros [(? & _ & ->) | (dir & f & H)]; [done |].
      by destruct dir as [|? [|? ?]].
  - rewrite <- app_assoc. cbn [app].
    change ("/" :: p ++ [d'; file])%list with (("/" :: p) ++ [d'; file])%list.
    rewrite rev_app_distr. cbn. split.
    + intros [= <-]. right. by exists p, file.
    + intros [(f & H & _) | (dir & f & H)].
      * by destruct p as [|? [|? ?]].
      * apply (app_inj_2 _ _ [d'; file] [d; f]) in H as [_ [= -> _]]; done.
Qed.

(** X2: [find_module_path] never touches the collected files or the
    configuration, returns the file that the import machinery gives, and
    records a package exactly when that file lies in a recognised
    installation directory and a distribution is found under the name of
    the directory holding it. *)
Theorem find_module_path_records (c c' : Collector) (name : string)
    (found : option Path) :
  find_module_path w c name = Done (found, c') →
  collected_files c' = collected_files c
  ∧ same_config c c'
  ∧ (∀ m, found = Some m ↔ import_module w name = Imported (Some m))
  ∧ ∀ s, s ∈ third_party_packages c' ↔
      s ∈ third_party_packages c
      ∨ ∃ m d key version,
          import_module w name = Imported (Some m)
          ∧ is_venv_module m = true
          ∧ held_by m d
          ∧ working_set_find w d = Some (key, version)
          ∧ s = key +:+ "==" +:+ version.
Proof.
  unfold find_module_path, get_package_name.
  destruct (import_module w name) as [| |[m|]] eqn:Himp; [| done | |].
  1,3: intros [= <- <-]; split; [done |]; split; [done |]; split;
    [by split | intros s; split; [by left | by intros [? | (? & ? & ? & ? & ? & _)]]].
  destruct (is_venv_module m) eqn:Hvenv.
  2:{ intros [= <- <-]. split; [done |]. split; [done |]. split.
      - intros m'. split; congruence.
      - intros s. split; [by left |].
        intros [? | (m' & d & k & v & [= <-] & Hv & _)]; [done | congruence]. }
  destruct (parts_m2 m) as [d|] eqn:Hd.
  2:{ intros [= <- <-]. split; [done |]. split; [done |]. split.
      - intros m'. split; congruence.
      - intros s. split; [by left |].
        intros [? | (m' & d & k & v & [= <-] & _ & Hh%parts_m2_held_by & _)];
          [done | congruence]. }
  destruct (working_set_find w d) as [[key version]|] eqn:Hws.
  - intros [= <- <-]. split; [done |]. split; [done |]. split.
    + intros m'. split; congruence.
    + intros s. simpl. rewrite elem_of_union, elem_of_singleton. split.
      * intros [-> | ?]; [| by left]. right. exists m, d, key, version.
        split; [done |]. split; [done |]. split; [by apply parts_m2_held_by | done].
      * intros [? | (m' & d' & k & v & [= <-] & _ & Hh%parts_m2_held_by & Hws' & ->)];
          [by right |].
        left. congruence.
  - intros [= <- <-]. split; [done |]. split; [done |]. split.
    + intros m'. split; congruence.
    + intros s. split; [by left |].
      intros [? | (m' & d' & k & v & [= <-] & _ & Hh%parts_m2_held_by & Hws' & _)];
        [done | congruence].
Qed.

End Resolver.

(** [find_module_path] on the import of [requests] from a virtual
    environment. *)
Lemma find_module_path_records_requests :
  find_module_path Host.venv_world Host.fresh "requests"
  = Done (Some Host.venv_file, add_package Host.fresh "requests==2.31.0")
  ∧ collected_files (add_package Host.fresh "requests==2.31.0")
    = collected_files Host.fresh
  ∧ same_config Host.fresh (add_package Host.fresh "requests==2.31.0")
  ∧ (∀ m, Some Host.venv_file = Some m ↔
          import_module Host.venv_world "requests" = Imported (Some m))
  ∧ ∀ s, s ∈ third_party_packages (add_package Host.fresh "requests==2.31.0") ↔
      s ∈ third_party_packages Host.fresh
      ∨ ∃ m d key version,
          import_module Host.venv_world "requests" = Imported (Some m)
          ∧ is_venv_module m = true
          ∧ held_by m d
          ∧ working_set_find Host.venv_world d = Some (key, version)
          ∧ s = key +:+ "==" +:+ version.
Proof.
  assert (Hrun : find_module_path Host.venv_world Host.fresh "requests"
                 = Done (Some Host.venv_file, add_package Host.fresh "requests==2.31.0"))
    by reflexivity.
  split; [exact Hrun |].
  exact (find_module_path_records Host.venv_world Host.fresh _ "requests" _ Hrun).
Defined.

(** ** The configuration sweep and the runtime observer *)

Section Sweep.

Context (w : World).

Lemma is_project_module_iff c p :
  is_project_module c p = true ↔ under_root c p ∧ p ≠ gateway_path c.
Proof.
  rewrite <- relative_to_under_root. unfold is_project_module.
  destruct (decide (p = gateway_path c)) as [->|Hne]; [naive_solver |].
  destruct (relative_to p (root_path c)); naive_solver.
Qed.

Lemma config_files_elem c p x :
  x ∈ config_files w c p ↔
    is_file w p = true ∧ x ∈ rglob w (parent p)
    ∧ PyStr.lower (suffix x) ∈ config_extensions c
    ∧ under_root c x ∧ x ≠ gateway_path c.
Proof.
  unfold config_files. destruct (is_file w p).
  - rewrite elem_of_list_to_set, list_elem_of_filter, is_project_module_iff.
    unfold config_suffixed. naive_solver.
  - rewrite elem_of_empty. naive_solver.
Qed.

(** X3: The sweep adds exactly the entries below the directory of the
    module whose suffix, lowered, is a configuration suffix and that lie
    under the root and are not the entry point; it adds nothing when the
    module path is not a regular file, and it never touches the recorded
    packages or the configuration. *)
Theorem collect_config_files_adds (c : Collector) (p x : Path) :
  (x ∈ collected_files (collect_config_files w c p) ↔
     x ∈ collected_files c
     ∨ (is_file w p = true ∧ x ∈ rglob w (parent p)
        ∧ PyStr.lower (suffix x) ∈ config_extensions c
        ∧ under_root c x ∧ x ≠ gateway_path c))
  ∧ third_party_packages (collect_config_files w c p) = third_party_packages c
  ∧ same_config c (collect_config_files w c p).
Proof.
  destruct (collect_config_files_spec w c p) as (Hcfg & Hpk & Hfiles).
  split; [| done]. by rewrite Hfiles, elem_of_union, config_files_elem.
Qed.

(** X4: Sweeping twice from the same module collects what one sweep
    collects, and two sweeps collect the same files in either order. *)
Theorem collect_config_files_idempotent (c : Collector) (p q : Path) :
  collected_files (collect_config_files w (collect_config_files w c p) p)
  = collected_files (collect_config_files w c p)
  ∧ collected_files (collect_config_files w (collect_config_files w c p) q)
    = collected_files (collect_config_files w (collect_config_files w c q) p).
Proof.
  destruct (collect_config_files_spec w c p) as (Hcp & _ & Hp).
  destruct (collect_config_files_spec w c q) as (Hcq & _ & Hq).
  destruct (collect_config_files_spec w (collect_config_files w c p) p) as (_ & _ & Hpp).
  destruct (collect_config_files_spec w (collect_config_files w c p) q) as (_ & _ & Hpq).
  destruct (collect_config_files_spec w (collect_config_files w c q) p) as (_ & _ & Hqp).
  rewrite Hpp, Hpq, Hqp, Hp, Hq.
  rewrite !(config_files_config w c (collect_config_files w c p)) by done.
  rewrite !(config_files_config w c (collect_config_files w c q)) by done.
  split; set_solver.
Qed.

Lemma runtime_loop loaded c :
  let c' := foldl (fun c (m : string * option Path) =>
                     match m.2 with
                     | Some module_path =>
                         if is_project_module c module_path
                         then collect_config_files w (add_file c module_path) module_path
                         else c
                     | None => c
                     end) c loaded in
  same_config c c'
  ∧ third_party_packages c' = third_party_packages c
  ∧ ∀ x, x ∈ collected_files c' ↔
      x ∈ collected_files c
      ∨ ∃ name m, (name, Some m) ∈ loaded ∧ is_project_module c m = true
                  ∧ (x = m ∨ x ∈ config_files w c m).
Proof.
  revert c. induction loaded as [|[name found] loaded IH]; intros c; cbn zeta.
  { split; [done |]. split; [done |]. intros x. split; [by left |].
    by intros [? | (? & ? & ?%elem_of_nil & _)]. }
  cbn [foldl snd]. set (c1 := match found with Some _ => _ | None => c end).
  assert (H1 : same_config c c1 ∧ third_party_packages c1 = third_party_packages c
           ∧ ∀ x, x ∈ collected_files c1 ↔
               x ∈ collected_files c
               ∨ ∃ m, found = Some m ∧ is_project_module c m = true
                      ∧ (x = m ∨ x ∈ config_files w c m)).
  { subst c1. destruct found as [m|].
    - destruct (is_project_module c m) eqn:Hproj.
      + destruct (collect_config_files_spec w (add_file c m) m) as (Hcfg & Hpk & Hf).
        split; [done |]. split; [done |]. intros x. rewrite Hf.
        rewrite (config_files_config w c (add_file c m)) by done. simpl.
        rewrite !elem_of_union, elem_of_singleton. naive_solver.
      + split; [done |]. split; [done |]. intros x. split; [by left |].
        intros [? | (m0 & [= <-] & Hp & _)]; [done | congruence].
    - split; [done |]. split; [done |]. intros x. split; [by left |].
      by intros [? | (m0 & [=] & _)]. }
  destruct H1 as (Hcfg1 & Hpk1 & Hf1). destruct (IH c1) as (Hcfg & Hpk & Hf).
  split; [by etrans |]. split; [congruence |].
  intros x. rewrite Hf, Hf1. split.
  - intros [[? | (m & -> & Hp & Hx)] | (name' & m & Hin & Hp & Hx)].
    + by left.
    + right. exists name, m. split; [left | done].
    + right. exists name', m. split; [by right |].
      rewrite (is_project_module_config c c1) in Hp by done.
      by rewrite (config_files_config w c c1) in Hx.
  - intros [? | (name' & m & [[= -> <-] | Hin]%elem_of_cons & Hp & Hx)].
    + left. by left.
    + left. right. by exists m.
    + right. exists name', m. split; [done |].
      rewrite (is_project_module_config c c1) by done.
      by rewrite (config_files_config w c c1).
Qed.

Lemma runtime_adds c tests x :
  x ∈ collected_files (collect_runtime_dependencies w c tests) ↔
    x ∈ collected_files c
    ∨ ∃ name m, (name, Some m) ∈ pytest_main w tests
                ∧ is_project_module c m = true
                ∧ (x = m ∨ x ∈ config_files w c m).
Proof. by destruct (runtime_loop (pytest_main w tests) c) as (_ & _ & H). Qed.

Lemma runtime_frame c tests :
  same_config c (collect_runtime_dependencies w c tests)
  ∧ third_party_packages (collect_runtime_dependencies w c tests)
    = third_party_packages c.
Proof. by destruct (runtime_loop (pytest_main w tests) c) as (? & ? & _). Qed.

(** X5: The runtime observer adds exactly the project-owned files of the
    modules that the test run loaded and what a sweep from each of them
    finds; modules without a file and files outside the root add
    nothing; the recorded packages and the configuration stay as they
    were, so a package that only the tests load never reaches the
    manifest. *)
Theorem collect_runtime_dependencies_adds (c : Collector) (tests : string) (x : Path) :
  (x ∈ collected_files (collect_runtime_dependencies w c tests) ↔
     x ∈ collected_files c
     ∨ ∃ name m,
         (name, Some m) ∈ pytest_main w tests
         ∧ under_root c m ∧ m ≠ gateway_path c
         ∧ (x = m
            ∨ (is_file w m = true ∧ x ∈ rglob w (parent m)
               ∧ PyStr.lower (suffix x) ∈ config_extensions c
               ∧ under_root c x ∧ x ≠ gateway_path c)))
  ∧ third_party_packages (collect_runtime_dependencies w c tests)
    = third_party_packages c
  ∧ same_config c (collect_runtime_dependencies w c tests).
Proof.
  destruct (runtime_loop (pytest_main w tests) c) as (Hcfg & Hpk & Hf).
  split; [| done]. unfold collect_runtime_dependencies. rewrite Hf.
  setoid_rewrite is_project_module_iff. setoid_rewrite config_files_elem.
  naive_solver.
Qed.

End Sweep.

(** ** More about the static walk *)

Section WalkMore.

Context (w : World).

Lemma find_module_path_frame c name found c' :
  find_module_path w c name = Done (found, c') →
  same_config c c' ∧ collected_files c' = collected_files c.
Proof.
  intros Hf. pose proof (find_module_path_spec w c name) as Hspec.
  destruct (import_module w name) as [| |[m|]].
  - destruct Hspec as (c1 & H1 & Hg & Hfiles). rewrite H1 in Hf.
    injection Hf as _ <-. split; [apply Hg | done].
  - congruence.
  - destruct Hspec as (c1 & H1 & Hg & Hfiles). rewrite H1 in Hf.
    injection Hf as _ <-. split; [apply Hg | done].
  - destruct Hspec as (c1 & H1 & Hg & Hfiles). rewrite H1 in Hf.
    injection Hf as _ <-. split; [apply Hg | done].
Qed.

Lemma find_module_path_recorded c name found c' s :
  find_module_path w c name = Done (found, c') →
  s ∈ third_party_packages c' →
  s ∈ third_party_packages c ∨ recorded_by w s.
Proof.
  unfold find_module_path, get_package_name.
  destruct (import_module w name) as [| |[m|]] eqn:Himp; [| done | |].
  1,3: intros [= _ <-]; by left.
  destruct (is_venv_module m) eqn:Hvenv; [| intros [= _ <-]; by left].
  destruct (parts_m2 m) as [d|] eqn:Hd; [| intros [= _ <-]; by left].
  destruct (working_set_find w d) as [[key version]|] eqn:Hws;
    [| intros [= _ <-]; by left].
  intros [= _ <-]. simpl.
  intros [->%elem_of_singleton | ?]%elem_of_union; [| by left].
  right. exists name, m, d, key, version.
  split; [done |]. split; [done |]. split; [by apply parts_m2_held_by | done].
Qed.

(** A relation between collectors that every step of the walk keeps is
    kept by a walk that returns. *)
Lemma for_imports_keeps (R : relation Collector) `{!PreOrder R} recurse :
  (∀ c name found c', find_module_path w c name = Done (found, c') → R c c') →
  (∀ c m, is_project_module c m = true → R c (add_file c m)) →
  (∀ c p, R c (collect_config_files w c p)) →
  (∀ c p c', result (recurse c p) = Done c' → R c c') →
  ∀ names c c', result (for_imports w recurse names c) = Done c' → R c c'.
Proof.
  intros Hfind Hadd Hsweep Hrec names.
  induction names as [|name names IH]; intros c c'.
  { by intros [= ->]. }
  cbn [for_imports]. rewrite result_bind. cbn [lift result].
  destruct (find_module_path w c name) as [[found c1]| |] eqn:Hf; [| done..].
  specialize (Hfind c name found c1 Hf).
  destruct found as [m|]; [| intros H; etrans; [done | by apply IH]].
  destruct (is_project_module c1 m) eqn:Hproj;
    [| intros H; etrans; [done | by apply IH]].
  destruct (decide (m ∈ collected_files c1));
    [intros H; etrans; [done | by apply IH] |].
  cbn zeta. rewrite result_bind.
  destruct (result (recurse _ m)) as [c4| |] eqn:Hres; [| done..].
  intros H. transitivity c1; [done |].
  transitivity (add_file c1 m); [by apply Hadd |].
  transitivity (collect_config_files w (add_file c1 m) m); [apply Hsweep |].
  transitivity c4; [by apply (Hrec _ m) | by apply IH].
Qed.

Lemma collect_static_dependencies_keeps (R : relation Collector) `{!PreOrder R} :
  (∀ c name found c', find_module_path w c name = Done (found, c') → R c c') →
  (∀ c m, is_project_module c m = true → R c (add_file c m)) →
  (∀ c p, R c (collect_config_files w c p)) →
  ∀ fuel c p c', result (collect_static_dependencies fuel w c p) = Done c' → R c c'.
Proof.
  intros Hfind Hadd Hsweep fuel.
  induction fuel as [|fuel IH]; intros c p c'; [done |].
  cbn [collect_static_dependencies].
  rewrite result_bind. cbn [tell result]. rewrite result_bind. cbn [lift result].
  destruct (analyze_imports w p) as [imports| |]; [| done..].
  intros H. transitivity (collect_config_files w c p); [apply Hsweep |].
  by apply (for_imports_keeps R (collect_static_dependencies fuel w)
              Hfind Hadd Hsweep IH (elements imports)).
Qed.

Lemma walk_adds_project_modules fuel c c' p x :
  result (collect_static_dependencies fuel w c p) = Done c' →
  x ∈ collected_files c' →
  x ∈ collected_files c ∨ is_project_module c x = true.
Proof.
  intros Hrun.
  set (R := fun a b : Collector =>
              same_config a b
              ∧ ∀ y, y ∈ collected_files b →
                     y ∈ collected_files a ∨ is_project_module a y = true).
  assert (HR : PreOrder R).
  { split.
    - intros a. split; [done | by left].
    - intros a b d [Hab Hab'] [Hbd Hbd']. split; [by etrans |].
      intros y [Hy | Hy]%Hbd'; [by apply Hab' |].
      right. by rewrite <- (is_project_module_config a b). }
  assert (H : R c c').
  { apply (collect_static_dependencies_keeps R) with (fuel := fuel) (p := p); [| | | done].
    - intros a name found b Hf.
      destruct (find_module_path_frame a name found b Hf) as (Hcfg & Hfiles).
      split; [done |]. intros y. rewrite Hfiles. by left.
    - intros a m Hm. split; [done |]. simpl.
      intros y [->%elem_of_singleton | ?]%elem_of_union; [by right | by left].
    - intros a q. destruct (collect_config_files_spec w a q) as (Hcfg & _ & Hfiles).
      split; [done |]. intros y. rewrite Hfiles.
      intros [? | [_ ?]%config_files_suffixed]%elem_of_union; [by left | by right]. }
  destruct H as [_ H]. apply H.
Qed.

(** X6: Every file that a returned walk added lies under the project root
    and is not the entry point: discovery never collects a file outside
    the root, whatever the imports resolve to. *)
Theorem walk_collects_only_project_files (fuel : nat) (c c' : Collector)
    (p x : Path) :
  result (collect_static_dependencies fuel w c p) = Done c' →
  x ∈ collected_files c' →
  x ∈ collected_files c ∨ (under_root c x ∧ x ≠ gateway_path c).
Proof.
  intros Hrun Hx.
  destruct (walk_adds_project_modules fuel c c' p x Hrun Hx) as [? | Hproj];
    [by left |].
  right. by apply is_project_module_iff.
Qed.

Lemma walk_packages_recorded fuel c c' p s :
  result (collect_static_dependencies fuel w c p) = Done c' →
  s ∈ third_party_packages c' →
  s ∈ third_party_packages c ∨ recorded_by w s.
Proof.
  intros Hrun.
  set (R := fun a b : Collector =>
              ∀ y, y ∈ third_party_packages b →
                   y ∈ third_party_packages a ∨ recorded_by w y).
  assert (HR : PreOrder R).
  { split.
    - intros a y. by left.
    - intros a b d Hab Hbd y [Hy | Hy]%Hbd; [by apply Hab | by right]. }
  apply (collect_static_dependencies_keeps R) with (fuel := fuel) (p := p); [| | | done].
  - intros a name found b Hf y. by apply (find_module_path_recorded a name found b).
  - intros a m _ y. by left.
  - intros a q y. destruct (collect_config_files_spec w a q) as (_ & -> & _). by left.
Qed.

(** X7: Every package that a returned walk recorded is the [key==version]
    string of a distribution found under the name of the directory that
    holds the file of an importable module, a file inside a recognised
    installation directory: modules outside such directories, the
    standard library among them, are never recorded. *)
Theorem walk_records_only_installed_packages (fuel : nat) (c c' : Collector)
    (p : Path) (s : string) :
  result (collect_static_dependencies fuel w c p) = Done c' →
  s ∈ third_party_packages c' →
  s ∈ third_party_packages c
  ∨ ∃ name m d key version,
      import_module w name = Imported (Some m)
      ∧ is_venv_module m = true
      ∧ held_by m d
      ∧ working_set_find w d = Some (key, version)
      ∧ s = key +:+ "==" +:+ version.
Proof.
  intros Hrun Hs.
  destruct (walk_packages_recorded fuel c c' p s Hrun Hs) as [? | Hrec]; [by left |].
  right. exact Hrec.
Qed.




(** X9: The entry point is never analysed as a dependency: in every walk,
    from every collector and start file, no file analysed after the
    first is the entry point, even when a module imports it back. *)
Theorem walk_never_follows_the_entry_point (fuel : nat) (c : Collector) (p : Path) :
  gateway_path c ∉ tail (trace (collect_static_dependencies fuel w c p)).
Proof.
  destruct (collect_static_dependencies_post w fuel c p)
    as [[-> _] | (tr & -> & (_ & Hnew & _) & _)]; [by intros ?%elem_of_nil |].
  cbn. intros [_ Hp]%Hnew. by rewrite is_project_module_gateway in Hp.
Qed.

(** X10: A module whose import raises anything but [ImportError] keeps the
    walk of a file that imports it from returning: only [ImportError]
    is caught. *)
Theorem import_exception_is_not_swallowed (p : Path) (text : string) (tree : node)
    (name : string) (fuel : nat) (c c' : Collector) :
  file_text w p = Some text →
  ast_parse w text = Some tree →
  imported_top_level tree name →
  import_module w name = ImportRaises →
  result (collect_static_dependencies fuel w c p) ≠ Done c'.
Proof.
  intros Htext Htree Hname Himp Hrun.
  destruct (collect_static_dependencies_post w fuel c p)
    as [[_ Hto] | (tr & _ & _ & _ & Hdone)]; [congruence |].
  destruct (Hdone c' Hrun) as ((text' & tree' & Ht & Hp & Hok) & _).
  assert (text' = text) as -> by congruence.
  assert (tree' = tree) as -> by congruence.
  by apply (Hok name); [apply tree_imports_spec |].
Qed.

(** X11: Imports that do not resolve, or resolve to a module without a file
    or to a file that is not project-owned, are not followed: a file
    with only such imports is the only file its walk analyses, and the
    walk collects what the sweep from that file finds and nothing more. *)
Theorem walk_follows_project_imports_only (p : Path) (text : string) (tree : node)
    (fuel : nat) (c : Collector) :
  file_text w p = Some text →
  ast_parse w text = Some tree →
  (∀ name, imported_top_level tree name →
     import_module w name ≠ ImportRaises
     ∧ ∀ m, import_module w name = Imported (Some m) → is_project_module c m = false) →
  trace (collect_static_dependencies (S fuel) w c p) = [p]
  ∧ ∃ c', result (collect_static_dependencies (S fuel) w c p) = Done c'
          ∧ collected_files c' = collected_files (collect_config_files w c p).
Proof.
  intros Htext Htree Himports.
  cbn [collect_static_dependencies].
  rewrite !trace_bind, !result_bind. cbn [tell lift trace result].
  rewrite ?trace_bind, ?result_bind. cbn [tell lift trace result].
  unfold analyze_imports. rewrite Htext, Htree. cbn [app].
  set (c1 := collect_config_files w c p).
  destruct (for_imports_settled w (collect_static_dependencies fuel w)
              (elements (tree_imports tree)) c1) as (-> & c2 & -> & _ & Hf2).
  { intros name Hname%elem_of_elements%tree_imports_spec.
    destruct (Himports name Hname) as [Hok Hout]. split; [done |].
    intros m Hm Hproj. specialize (Hout m Hm).
    rewrite (is_project_module_config c c1) in Hproj
      by apply collect_config_files_spec.
    congruence. }
  split; [done |]. by exists c2.
Qed.

Lemma for_imports_swept recurse :
  (∀ c p, call_post w c p (recurse c p)) →
  (∀ c p c' f, result (recurse c p) = Done c' → f ∈ trace (recurse c p) →
               config_files w c f ⊆ collected_files c') →
  ∀ names c c' f, result (for_imports w recurse names c) = Done c' →
    f ∈ trace (for_imports w recurse names c) →
    config_files w c f ⊆ collected_files c'.
Proof.
  intros Hpost Hrec names. induction names as [|name names IH]; intros c c' f Hres Hin.
  { by apply elem_of_nil in Hin. }
  pose proof (for_imports_cons w recurse name names c) as Hcons. cbn zeta in Hcons.
  assert (Hnext : ∀ c1, grows c c1 →
            trace (for_imports w recurse (name :: names) c)
            = trace (for_imports w recurse names c1) →
            result (for_imports w recurse (name :: names) c)
            = result (for_imports w recurse names c1) →
            config_files w c f ⊆ collected_files c').
  { intros c1 Hg Htr Hr. rewrite Htr in Hin. rewrite Hr in Hres.
    rewrite <- (config_files_config w c c1) by apply Hg. by apply IH. }
  destruct (import_module w name) as [| |[m|]].
  - destruct Hcons as (c1 & Hg & _ & Htr & Hr). by apply (Hnext c1).
  - destruct Hcons as [Htr _]. rewrite Htr in Hin. by apply elem_of_nil in Hin.
  - destruct Hcons as (c1 & Hg & Hf & Hcons).
    destruct (decide (is_project_module c m = true ∧ m ∉ collected_files c))
      as [[Hproj Hnew] | _].
    2:{ destruct Hcons as [Htr Hr]. by apply (Hnext c1). }
    set (c3 := collect_config_files w (add_file c1 m) m) in *.
    destruct (walk_post_call w c c1 m (recurse c3 m) Hg Hf Hnew Hproj (Hpost c3 m))
      as [(_ & _ & _ & Hdone) _].
    assert (Hg3 : grows c c3).
    { etrans; [done |]. etrans; [apply grows_add_file |].
      apply grows_collect_config_files. }
    specialize (Hrec c3 m).
    destruct (result (recurse c3 m)) as [c4| |] eqn:Hres1.
    + destruct Hcons as [Htr Hr]. rewrite Htr in Hin. rewrite Hr in Hres.
      destruct (Hdone c4 eq_refl) as (Hg4 & _).
      destruct (for_imports_post w recurse Hpost names c4) as [(_ & _ & _ & Hrest) _].
      destruct (Hrest c' Hres) as ((_ & Hsub & _) & _).
      apply elem_of_app in Hin as [Hin | Hin].
      * rewrite <- (config_files_config w c c3) by apply Hg3.
        etrans; [by apply (Hrec c4 f) | done].
      * rewrite <- (config_files_config w c c4) by apply Hg4. by apply IH.
    + destruct Hcons as [_ Hr]. congruence.
    + destruct Hcons as [_ Hr]. congruence.
  - destruct Hcons as (c1 & Hg & _ & Htr & Hr). by apply (Hnext c1).
Qed.

Lemma collect_static_dependencies_swept fuel c p c' f :
  result (collect_static_dependencies fuel w c p) = Done c' →
  f ∈ trace (collect_static_dependencies fuel w c p) →
  config_files w c f ⊆ collected_files c'.
Proof.
  revert c p c' f. induction fuel as [|fuel IH]; intros c p c' f; [done |].
  cbn [collect_static_dependencies].
  rewrite trace_bind, result_bind. cbn [tell trace result].
  rewrite trace_bind, result_bind. cbn [lift trace result app].
  destruct (analyze_imports w p) as [imports| |]; [| done..].
  pose proof (grows_collect_config_files w c p) as Hg.
  destruct (collect_config_files_spec w c p) as (_ & _ & Hfiles).
  set (c1 := collect_config_files w c p) in *.
  intros Hres Hin.
  destruct (for_imports_post w (collect_static_dependencies fuel w)
              (collect_static_dependencies_post w fuel) (elements imports) c1)
    as [(_ & _ & _ & Hdone) _].
  destruct (Hdone c' Hres) as ((_ & Hsub & _) & _).
  apply elem_of_cons in Hin as [-> | Hin].
  - etrans; [| exact Hsub]. rewrite Hfiles. set_solver.
  - rewrite <- (config_files_config w c c1) by apply Hg.
    by apply (for_imports_swept (collect_static_dependencies fuel w)
                (collect_static_dependencies_post w fuel) IH (elements imports) c1).
Qed.

(** X12: When the walk returns, the directory of every file it analysed has
    been swept: each entry below it with a configuration suffix, in any
    letter case, that lies under the root and is not the entry point is
    collected. *)
Theorem walk_sweeps_every_analysed_file (fuel : nat) (c c' : Collector)
    (p f x : Path) :
  result (collect_static_dependencies fuel w c p) = Done c' →
  f ∈ trace (collect_static_dependencies fuel w c p) →
  is_file w f = true →
  x ∈ rglob w (parent f) →
  PyStr.lower (suffix x) ∈ config_extensions c →
  under_root c x →
  x ≠ gateway_path c →
  x ∈ collected_files c'.
Proof.
  intros Hres Hin Hfile Hx Hsuffix Hroot Hgw.
  apply (collect_static_dependencies_swept fuel c p c' f Hres Hin).
  by apply config_files_elem.
Qed.

End WalkMore.



(** ** More about the bundle *)

Section BundleMore.

Context (w : World).

Lemma copy_files_step c f files tree :
  copy_files w c (f :: files) tree
  = if decide (eligible c f) then
      match relative_to f (root_path c) with
      | Some rel =>
          if is_file w f then
            if decide (f = join (output_path c) rel) then Raise SameFileError
            else copy_files w c files (<[ join (output_path c) rel := CopyOf f ]> tree)
          else Raise OSError
      | None => copy_files w c files tree
      end
    else copy_files w c files tree.
Proof.
  cbn [copy_files].
  destruct (decide (eligible c f)) as [[Hp Hv] | Hnot].
  - rewrite Hp, Hv. cbn [andb negb].
    destruct (relative_to f (root_path c)) as [rel|]; [| done].
    unfold copy2. destruct (is_file w f); [| done].
    by destruct (decide (f = join (output_path c) rel)).
  - destruct (is_project_module c f) eqn:Hp; [| done].
    destruct (is_venv_module f) eqn:Hv; [done |].
    by destruct Hnot.
Qed.

Lemma eligible_relative c f :
  eligible c f → ∃ rel, relative_to f (root_path c) = Some rel ∧ f = join (root_path c) rel.
Proof.
  intros [Hproj _]. unfold is_project_module in Hproj.
  destruct (decide (f = gateway_path c)); [done |].
  destruct (relative_to f (root_path c)) as [rel|] eqn:Hrel; [| done].
  exists rel. split; [done | by apply relative_to_spec].
Qed.







(** An eligible file that cannot be copied keeps the loop from
    returning. *)
Lemma copy_files_stuck c files tree f :
  f ∈ files → eligible c f →
  is_file w f = false ∨ output_path c = root_path c →
  ∃ e, copy_files w c files tree = Raise e.
Proof.
  revert tree. induction files as [|f0 files IH]; intros tree Hin Hel Hbad.
  { by apply elem_of_nil in Hin. }
  rewrite copy_files_step.
  destruct (decide (eligible c f0)) as [Hel0 | Hnot].
  - destruct (eligible_relative c f0 Hel0) as (rel & -> & Hf0).
    destruct (is_file w f0) eqn:Hfile; [| by exists OSError].
    destruct (decide (f0 = join (output_path c) rel)) as [_ | Hne];
      [by exists SameFileError |].
    apply elem_of_cons in Hin as [-> | Hin]; [| by apply IH].
    destruct Hbad as [? | Hout]; [congruence |]. by rewrite Hout in Hne.
  - apply elem_of_cons in Hin as [-> | Hin]; [done | by apply IH].
Qed.

(** X15: With the output directory equal to the project root, which is what
    the default output path gives for an entry point right below the
    root, bundling raises as soon as one collected file is eligible:
    the file would be copied onto itself. *)
Theorem copy_dependencies_in_place_raises (c : Collector) (tree : gmap Path content)
    (f : Path) :
  output_path c = root_path c →
  f ∈ collected_files c →
  eligible c f →
  ∃ e, copy_dependencies w c tree = Raise e.
Proof.
  intros Hout Hin Hel. unfold copy_dependencies.
  destruct (copy_files_stuck c (elements (collected_files c)) tree f) as [e ->];
    [by apply elem_of_elements | done | by right |].
  by exists e.
Qed.

(** X16: A collected entry that is eligible but is not a regular file, a
    directory whose name ends in a configuration suffix for one, makes
    bundling raise; no manifest is written then. *)
Theorem copy_dependencies_needs_regular_files (c : Collector)
    (tree : gmap Path content) (f : Path) :
  f ∈ collected_files c →
  eligible c f →
  is_file w f = false →
  ∃ e, copy_dependencies w c tree = Raise e.
Proof.
  intros Hin Hel Hfile. unfold copy_dependencies.
  destruct (copy_files_stuck c (elements (collected_files c)) tree f) as [e ->];
    [by apply elem_of_elements | done | by left |].
  by exists e.
Qed.


End BundleMore.

(** ** A whole run *)

Section Run.

Context (w : World).

(** X18: After a run that returns, the entry point is collected, every other
    collected file lies under the project root, whichever phase found
    it, and every recorded package is one that the static walk resolved
    into a recognised installation directory and found a distribution
    for. *)
Theorem main_collects_project_files_and_installed_packages
    (fuel : nat) (gateway root : Path) (output : option Path) (tests : string)
    (tree tree' : gmap Path content) (c : Collector) :
  main fuel w gateway root output tests tree = Done (c, tree') →
  gateway ∈ collected_files c
  ∧ (∀ x, x ∈ collected_files c → x = gateway ∨ ∃ rel, x = join root rel)
  ∧ ∀ s, s ∈ third_party_packages c → recorded_by w s.
Proof.
  unfold main. cbn zeta. cbn [init gateway_path].
  set (c0 := init gateway root output).
  destruct (result (collect_static_dependencies fuel w c0 gateway)) as [c1| |] eqn:Hwalk;
    [| done..].
  cbn [mbind outcome_bind bind].
  destruct (copy_dependencies w (collect_runtime_dependencies w c1 tests) tree)
    as [tree1| |]; [| done..].
  cbn [mbind outcome_bind bind mret outcome_ret]. intros [= <- <-].
  assert (Hcfg : same_config c0 c1).
  { destruct (collect_static_dependencies_post w fuel c0 gateway)
      as [[_ Hto] | (tr & _ & (_ & _ & _ & Hdone) & _)]; [congruence |].
    by destruct (Hdone c1 Hwalk) as ((? & _) & _). }
  assert (Hroot : root_path c1 = root) by apply Hcfg.
  assert (Hold : ∀ x, x ∈ collected_files c1 → x = gateway ∨ ∃ rel, x = join root rel).
  { intros x Hx.
    destruct (walk_adds_project_modules w fuel c0 c1 gateway x Hwalk Hx)
      as [Hx0 | [[rel Hrel] _]%is_project_module_iff].
    - left. simpl in Hx0. by apply elem_of_singleton in Hx0.
    - right. by exists rel. }
  split; [| split].
  - apply runtime_adds. left.
    destruct (collect_static_dependencies_post w fuel c0 gateway)
      as [[_ Hto] | (tr & _ & (_ & _ & _ & Hdone) & _)]; [congruence |].
    destruct (Hdone c1 Hwalk) as ((_ & Hsub & _) & _). apply Hsub. simpl. set_solver.
  - intros x Hx.
    apply runtime_adds in Hx
      as [Hx | (name & m & _ & [[rel Hm] _]%is_project_module_iff & [-> | Hx])].
    + by apply Hold.
    + right. exists rel. by rewrite <- Hroot.
    + apply config_files_elem in Hx as (_ & _ & _ & [rel' Hx] & _).
      right. exists rel'. by rewrite <- Hroot.
  - intros s Hs.
    destruct (runtime_frame w c1 tests) as [_ Hpk]. rewrite Hpk in Hs.
    destruct (walk_packages_recorded w fuel c0 c1 gateway s Hwalk Hs)
      as [Hs0 | ?]; [| done].
    simpl in Hs0. by apply elem_of_empty in Hs0.
Qed.


End Run.

(** ** The further theorems at work on small hosts *)

Lemma cycle_walk_returns :
  result (collect_static_dependencies 3 Host.cycle_world Host.fresh Host.app_py)
  = Done Host.cycle_collected.
Proof. vm_compute. reflexivity. Qed.


Lemma runtime_run_returns :
  main 2 Scenario.runtime_world Host.app_py Host.proj (Some Host.out) "tests" ∅
  = Done (Scenario.runtime_final, Scenario.runtime_tree).
Proof. vm_compute. reflexivity. Qed.


(** The walk of the cycle host collects [a.py], a file under the root. *)
Lemma walk_collects_only_project_files_cycle :
  ["proj"; "a.py"] ∈ collected_files Host.cycle_collected
  ∧ (["proj"; "a.py"] ∈ collected_files Host.fresh
     ∨ (under_root Host.fresh ["proj"; "a.py"]
        ∧ ["proj"; "a.py"] ≠ gateway_path Host.fresh)).
Proof.
  assert (Hin : ["proj"; "a.py"] ∈ collected_files Host.cycle_collected) by by_compute.
  split; [exact Hin |].
  exact (walk_collects_only_project_files Host.cycle_world 3 Host.fresh
           Host.cycle_collected Host.app_py ["proj"; "a.py"] cycle_walk_returns Hin).
Defined.

(** The walk of the host with a virtual environment records [requests]. *)
Lemma walk_records_only_installed_packages_venv :
  result (collect_static_dependencies 2 Host.venv_world Host.fresh Host.app_py)
  = Done Scenario.venv_collected
  ∧ "requests==2.31.0" ∈ third_party_packages Scenario.venv_collected
  ∧ ("requests==2.31.0" ∈ third_party_packages Host.fresh
     ∨ recorded_by Host.venv_world "requests==2.31.0").
Proof.
  assert (Hrun : result (collect_static_dependencies 2 Host.venv_world Host.fresh
                           Host.app_py) = Done Scenario.venv_collected)
    by (vm_compute; reflexivity).
  assert (Hin : "requests==2.31.0" ∈ third_party_packages Scenario.venv_collected)
    by by_compute.
  split; [exact Hrun |]. split; [exact Hin |].
  exact (walk_records_only_installed_packages Host.venv_world 2 Host.fresh
           Scenario.venv_collected Host.app_py "requests==2.31.0" Hrun Hin).
Defined.


Lemma import_a_imported : imported_top_level (Module [Import [Alias "a" None]]) "a".
Proof.
  apply (imported_by_import _ _ [Alias "a" None] (Alias "a" None)).
  - eapply subnode_child; [| apply subnode_self]. cbn. left.
  - by apply list_elem_of_singleton.
  - by apply first_dotted_component_split.
Qed.

(** A walk on a host where the import of [a] raises. *)
Lemma import_exception_on_crash_world :
  import_module Scenario.crash_world "a" = ImportRaises
  ∧ result (collect_static_dependencies 2 Scenario.crash_world Host.fresh Host.app_py)
    ≠ Done Host.fresh.
Proof.
  split; [reflexivity |].
  apply (import_exception_is_not_swallowed Scenario.crash_world Host.app_py
           "import a" (Module [Import [Alias "a" None]]) "a" 2 Host.fresh Host.fresh);
    [reflexivity | reflexivity | exact import_a_imported | reflexivity].
Defined.

Lemma runtime_world_imports_elsewhere name :
  imported_top_level (Module [Import [Alias "os" None; Alias "requests" None]]) name →
  import_module Scenario.runtime_world name ≠ ImportRaises
  ∧ ∀ m, import_module Scenario.runtime_world name = Imported (Some m) →
         is_project_module Host.fresh m = false.
Proof.
  intros Hname%tree_imports_spec%elem_of_elements.
  assert (Hel : elements (tree_imports
                  (Module [Import [Alias "os" None; Alias "requests" None]]))
                = ["os"; "requests"]) by (vm_compute; reflexivity).
  rewrite Hel in Hname.
  apply elem_of_cons in Hname as [-> | Hname].
  { split; [done |]. by intros m [= <-]. }
  apply list_elem_of_singleton in Hname as ->.
  split; [done |]. by intros m [= <-].
Qed.

(** The walk on a file that imports [os] and [requests] only. *)
Lemma walk_of_third_party_imports :
  trace (collect_static_dependencies 1 Scenario.runtime_world Host.fresh Host.app_py)
  = [Host.app_py]
  ∧ ∃ c', result (collect_static_dependencies 1 Scenario.runtime_world Host.fresh
                    Host.app_py) = Done c'
          ∧ collected_files c'
            = collected_files (collect_config_files Scenario.runtime_world Host.fresh
                                 Host.app_py).
Proof.
  apply (walk_follows_project_imports_only Scenario.runtime_world Host.app_py
           "import os, requests"
           (Module [Import [Alias "os" None; Alias "requests" None]]) 0 Host.fresh);
    [reflexivity | reflexivity | exact runtime_world_imports_elsewhere].
Defined.

(** The walk of the cycle host sweeps the directory of [a.py] and finds
    [a.json]. *)
Lemma walk_sweeps_a_json :
  ["proj"; "a.py"] ∈ trace (collect_static_dependencies 3 Host.cycle_world Host.fresh
                              Host.app_py)
  ∧ ["proj"; "a.json"] ∈ collected_files Host.cycle_collected.
Proof.
  assert (Hin : ["proj"; "a.py"]
                ∈ trace (collect_static_dependencies 3 Host.cycle_world Host.fresh
                           Host.app_py)) by by_compute.
  split; [exact Hin |].
  apply (walk_sweeps_every_analysed_file Host.cycle_world 3 Host.fresh
           Host.cycle_collected Host.app_py ["proj"; "a.py"] ["proj"; "a.json"]
           cycle_walk_returns Hin);
    [reflexivity | by_compute | by_compute | by exists ["a.json"] | done].
Defined.



(** Bundling in place: the output directory is the root. *)
Lemma bundle_in_place_raises :
  output_path Scenario.in_place = root_path Scenario.in_place
  ∧ ∃ e, copy_dependencies Host.cycle_world Scenario.in_place ∅ = Raise e.
Proof.
  split; [reflexivity |].
  apply (copy_dependencies_in_place_raises Host.cycle_world Scenario.in_place ∅
           ["proj"; "a.py"]); [reflexivity | by_compute | by_compute].
Defined.

(** Bundling a collected entry that is not a regular file. *)
Lemma bundle_of_a_directory_raises :
  is_file Host.cycle_world ["proj"; "data.json"] = false
  ∧ ∃ e, copy_dependencies Host.cycle_world Scenario.stale ∅ = Raise e.
Proof.
  split; [reflexivity |].
  apply (copy_dependencies_needs_regular_files Host.cycle_world Scenario.stale ∅
           ["proj"; "data.json"]); [by_compute | by_compute | reflexivity].
Defined.


(** A whole run on the host where the tests load [lazy.py]. *)
Lemma run_collects_project_files_and_installed_packages :
  main 2 Scenario.runtime_world Host.app_py Host.proj (Some Host.out) "tests" ∅
  = Done (Scenario.runtime_final, Scenario.runtime_tree)
  ∧ Host.app_py ∈ collected_files Scenario.runtime_final
  ∧ (∀ x, x ∈ collected_files Scenario.runtime_final →
          x = Host.app_py ∨ ∃ rel, x = join Host.proj rel)
  ∧ ∀ s, s ∈ third_party_packages Scenario.runtime_final →
         recorded_by Scenario.runtime_world s.
Proof.
  split; [exact runtime_run_returns |].
  exact (main_collects_project_files_and_installed_packages Scenario.runtime_world
           2 Host.app_py Host.proj (Some Host.out) "tests" ∅ Scenario.runtime_tree
           Scenario.runtime_final runtime_run_returns).
Defined.


(** A project with a [requirements.txt] of its own at the root and one
    recorded package: the manifest takes the place of the project's
    file in the output tree. *)
Example own_requirements_is_replaced :
  eligible Scenario.own_requirements ["proj"; "requirements.txt"]
  ∧ Scenario.own_requirements_tree !! ["out"; "requirements.txt"]
    = Some (Text ("requests==2.31.0" +:+ newline)).
Proof. split; by_compute. Qed.
